(** * vs-docblockr: the PHP language module, the docblock renderer and the
      language registry, embedded from the TypeScript sources.

    Token texts are JavaScript strings; they are modelled as [string], one
    character per code unit in the range the source's patterns mention
    (0x00-0xff).  A value that may be [undefined] is an [option]. *)

From Stdlib Require Import Ascii String NArith DecimalString.
From Stdlib Require Import DecimalNat.
From stdpp Require Import base decidable option list strings gmap.

Open Scope string_scope.

(** ** JavaScript string helpers *)

Module Js.

(** [String(v)] for a value that is a string or [undefined]. *)
Definition toString (v : option string) : string :=
  match v with
  | Some s => s
  | None => "undefined"
  end.

(** Truthiness of a value that is a string or [undefined]. *)
Definition truthy (v : option string) : bool :=
  match v with
  | Some "" => false
  | Some _ => true
  | None => false
  end.

(** A character class range [lo-hi]. *)
Definition between (lo hi c : ascii) : bool :=
  (N_of_ascii lo <=? N_of_ascii c)%N && (N_of_ascii c <=? N_of_ascii hi)%N.

Definition x80 : ascii := ascii_of_N 128.
Definition xff : ascii := ascii_of_N 255.

Fixpoint all (p : ascii -> bool) (s : string) : bool :=
  match s with
  | "" => true
  | String c r => p c && all p r
  end.

(** [Array(n + 1).join(' ')]: a string of [n] blanks. *)
Fixpoint spaces (n : nat) : string :=
  match n with
  | O => ""
  | S k => String " " (spaces k)
  end.

(** Decimal rendering of a number inside a template literal. *)
Definition ofNat (n : nat) : string := NilZero.string_of_uint (Nat.to_uint n).

(** [s.replace('$', '\\$')]: a string pattern replaces the first occurrence
    only. *)
Fixpoint replaceFirstDollar (s : string) : string :=
  match s with
  | "" => ""
  | String c r =>
      if Ascii.eqb c "$" then String "\" (String "$" r)
      else String c (replaceFirstDollar r)
  end.

(** What replacing every occurrence would give; used to state what the
    documentation of [escape] promises. *)
Fixpoint replaceAllDollar (s : string) : string :=
  match s with
  | "" => ""
  | String c r =>
      if Ascii.eqb c "$" then String "\" (String "$" (replaceAllDollar r))
      else String c (replaceAllDollar r)
  end.

(** [l.join(sep)] *)
Fixpoint join (sep : string) (l : list string) : string :=
  match l with
  | [] => ""
  | [x] => x
  | x :: r => x +:+ sep +:+ join sep r
  end.

(** What a call that may throw completes with. *)
Inductive exception :=
  | TypeError
  | Error (message : string).

Inductive completion (A : Type) :=
  | Normal (a : A)
  | Throw (e : exception).

Arguments Normal {A} a.
Arguments Throw {A} e.

Definition bind {A B} (m : completion A) (k : A -> completion B) : completion B :=
  match m with
  | Normal a => k a
  | Throw e => Throw e
  end.

(** [l.map(f)] where [f] reads a property of a value that may be
    [undefined]: the first [undefined] throws. *)
Fixpoint mapProperty {A B} (f : A -> option B) (l : list A) : completion (list B) :=
  match l with
  | [] => Normal []
  | x :: r =>
      match f x with
      | None => Throw TypeError
      | Some y => bind (mapProperty f r) (fun ys => Normal (y :: ys))
      end
  end.

(** [l.reduce((a, b) => Math.max(a, b))]: without an initial value the
    first element starts the fold, and an empty array throws. *)
Definition reduceMax (l : list nat) : completion nat :=
  match l with
  | [] => Throw TypeError
  | x :: r => Normal (foldl Nat.max x r)
  end.

End Js.

#[global] Instance completion_bind : MBind Js.completion :=
  fun A B k m => Js.bind m k.

(** ** Grammar table *)

Module Grammar.

Record t := {
  class : list string;
  function : list string;
  identifier : string;
  modifiers : list string;
  types : list string;
  variables : list string;
}.

(** The list stored under a category name. *)
Definition category (g : t) (c : string) : option (list string) :=
  if decide (c = "class") then Some (class g)
  else if decide (c = "function") then Some (function g)
  else if decide (c = "modifiers") then Some (modifiers g)
  else if decide (c = "types") then Some (types g)
  else if decide (c = "variables") then Some (variables g)
  else None.

(** Modelled from the spec: [Grammar.is] (the Grammar class is not among the
    sources), "membership test against a named grammar category". *)
Definition is_ (g : t) (token : option string) (c : string) : bool :=
  match token, category g c with
  | Some s, Some l => bool_decide (s ∈ l)
  | _, _ => false
  end.

End Grammar.

(** ** Parameters, symbols and tokens *)

Module Param.

(** [Param]: [val] is the empty string when no default value is given; [type]
    is [None] when the object has no [type] property. *)
Record t := {
  name : string;
  val : string;
  type : option string;
}.

Definition make (name : string) (type : option string) : t :=
  {| name := name; val := ""; type := type |}.

#[global] Instance eq_dec : EqDecision t.
Proof. solve_decision. Defined.

Definition setName (n : string) (p : t) : t :=
  {| name := n; val := val p; type := type p |}.

End Param.

Module SymbolKind.

(** The three kinds the parser assigns ([Variable] is reserved in Rocq). *)
Inductive t := Class | Function | Variable_.

#[global] Instance eq_dec : EqDecision t.
Proof. solve_decision. Defined.

End SymbolKind.

Module Return.

Record t := {
  present : bool;
  type : option string;
}.

#[global] Instance eq_dec : EqDecision t.
Proof. solve_decision. Defined.

End Return.

Module Symbols.

(** The record a parse run fills in.  [name] holds whatever token value a
    handler stores in it; [type] is [None] until a handler assigns a kind. *)
Record t := {
  name : option string;
  params : list Param.t;
  return_ : Return.t;
  type : option SymbolKind.t;
}.

#[global] Instance eq_dec : EqDecision t.
Proof. solve_decision. Defined.

(** Modelled from the spec: the fresh record of the Symbols class (not among
    the sources): empty name, no parameters, no kind, return information
    present and untyped (as the record created by [Parser.tokenize]). *)
Definition fresh : t :=
  {| name := Some ""; params := [];
     return_ := {| Return.present := true; Return.type := None |};
     type := None |}.

Definition setName (n : option string) (s : t) : t :=
  {| name := n; params := params s; return_ := return_ s; type := type s |}.

Definition setType (k : SymbolKind.t) (s : t) : t :=
  {| name := name s; params := params s; return_ := return_ s;
     type := Some k |}.

Definition setParams (ps : list Param.t) (s : t) : t :=
  {| name := name s; params := ps; return_ := return_ s; type := type s |}.

Definition setReturnType (ty : option string) (s : t) : t :=
  {| name := name s; params := params s;
     return_ := {| Return.present := Return.present (return_ s);
                   Return.type := ty |};
     type := type s |}.

Definition setReturnPresent (b : bool) (s : t) : t :=
  {| name := name s; params := params s;
     return_ := {| Return.present := b;
                   Return.type := Return.type (return_ s) |};
     type := type s |}.

(** Modelled from the spec: [Symbols.addParameter] appends a Parameter; a
    parameter given without default value has the empty string as [val]. *)
Definition addParameter (p : Param.t) (s : t) : t :=
  setParams (params s ++ [p]) s.

(** Modelled from the spec: index of the most recently added Parameter.  On an
    empty list the source's index is -1, which names no element; here it is 0,
    which names no element of an empty list either. *)
Definition getLastParameterIndex (s : t) : nat := length (params s) - 1.

(** Modelled from the spec: the Parameter at an index, [None] for
    [undefined]. *)
Definition getParameter (i : nat) (s : t) : option Param.t := params s !! i.

Definition is_kind (k : SymbolKind.t) (s : t) : bool :=
  bool_decide (type s = Some k).

End Symbols.

Module Token.

(** An acorn token: the label of its type and its value ([None] for
    punctuation, which carries no value).  The value of a numeric literal
    (label "num") is a number, every other value a string; a number is held
    as the text [String(value)] that the patterns of the handlers test, its
    label telling it from the string of the same text. *)
Record t := {
  label : string;
  value : option string;
}.

(** An identifier; a keyword or an operator, whose value is its own text;
    a punctuation mark; a numeric literal, given by the decimal text of its
    number. *)
Definition name (s : string) : t := {| label := "name"; value := Some s |}.
Definition keyword (s : string) : t := {| label := s; value := Some s |}.
Definition operator (s : string) : t := {| label := s; value := Some s |}.
Definition punct (l : string) : t := {| label := l; value := None |}.
Definition num (s : string) : t := {| label := "num"; value := Some s |}.

(** [token.value] read as a condition: a number is falsy when it is zero,
    whose text is "0"; a string when it is empty; [undefined] always. *)
Definition truthy (token : t) : bool :=
  if bool_decide (label token = "num") then
    match value token with
    | Some s => negb (bool_decide (s = "0"))
    | None => false
    end
  else Js.truthy (value token).

End Token.

(** ** Configuration read by the parser *)

Module Config.

Record t := {
  columnSpacing : nat;
  defaultReturnTag : bool;
  phpMixedUnionTypes : bool;
}.

End Config.

(** ** The PHP language module *)

Module PHP.

Definition grammar : Grammar.t :=
  {| Grammar.class := ["class"; "trait"];
     Grammar.function := ["function"];
     Grammar.identifier :=
       "([a-zA-Z0-9_$" +:+ String (ascii_of_N 127) ("-" +:+ String Js.xff "]+)");
     Grammar.modifiers :=
       ["public"; "static"; "protected"; "private"; "abstract"; "final"];
     Grammar.types :=
       ["self"; "array"; "callable"; "bool"; "boolean"; "float"; "int";
        "integer"; "string"; "iterable"; "stdClass"];
     Grammar.variables := ["const"] |}.

(** [/^\?/.test(type)] *)
Definition nullable_test (type : string) : bool :=
  match type with
  | String c _ => Ascii.eqb c "?"
  | "" => false
  end.

(** [type.replace(/^\?/, '')] *)
Definition nullable_remove (type : string) : string :=
  match type with
  | String c r => if Ascii.eqb c "?" then r else type
  | "" => ""
  end.

Definition formatNullable (config : Config.t) (type : string) : string :=
  if nullable_test type then
    if Config.phpMixedUnionTypes config then "mixed"
    else nullable_remove type +:+ "|null"
  else type.

(** [[a-zA-Z_\x80-\xff]] *)
Definition classFirst (c : ascii) : bool :=
  Js.between "a" "z" c || Js.between "A" "Z" c || Ascii.eqb c "_"
  || Js.between Js.x80 Js.xff c.

(** [[a-zA-Z0-9_\x80-\xff]] *)
Definition classNext (c : ascii) : bool :=
  Js.between "a" "z" c || Js.between "A" "Z" c || Js.between "0" "9" c
  || Ascii.eqb c "_" || Js.between Js.x80 Js.xff c.

(** [/^[a-zA-Z_\x80-\xff][a-zA-Z0-9_\x80-\xff]*$/.test(type)] *)
Definition classExpression (type : string) : bool :=
  match type with
  | "" => false
  | String c r => classFirst c && Js.all classNext r
  end.

Definition notReserved (type : string) : bool :=
  forallb (fun item => negb (Grammar.is_ grammar (Some type) item))
          ["function"; "class"; "modifiers"; "variables"].

Definition isType (type : string) : bool :=
  notReserved type
  && (Grammar.is_ grammar (Some type) "types" || classExpression type).

(** [isType] as the specification words it, to be compared with the source's:
    a built-in type, or a class-name shaped identifier with a capitalized
    first character that is no keyword of the four categories. *)
Definition capitalized (type : string) : bool :=
  match type with
  | String c _ => Js.between "A" "Z" c
  | "" => false
  end.

Definition isType_specified (type : string) : bool :=
  Grammar.is_ grammar (Some type) "types"
  || (classExpression type && capitalized type && notReserved type).

(** The keywords of the four categories [isType] checks. *)
Definition reserved : list string :=
  Grammar.function grammar ++ Grammar.class grammar
  ++ Grammar.modifiers grammar ++ Grammar.variables grammar.

(** [/^\$/.test(name)]; an [undefined] name is tested as the string
    "undefined". *)
Definition isVariableName (name : option string) : bool :=
  match Js.toString name with
  | String c _ => Ascii.eqb c "$"
  | "" => false
  end.

(** The parser's expectation flags together with the record being filled. *)
Record State := {
  done : bool;
  expectName : bool;
  expectParameter : bool;
  expectParameterType : bool;
  expectReturnType : bool;
  symbols : Symbols.t;
}.

Definition setDone (b : bool) (st : State) : State :=
  {| done := b; expectName := expectName st;
     expectParameter := expectParameter st;
     expectParameterType := expectParameterType st;
     expectReturnType := expectReturnType st; symbols := symbols st |}.

Definition setExpectName (b : bool) (st : State) : State :=
  {| done := done st; expectName := b;
     expectParameter := expectParameter st;
     expectParameterType := expectParameterType st;
     expectReturnType := expectReturnType st; symbols := symbols st |}.

Definition setExpectParameter (b : bool) (st : State) : State :=
  {| done := done st; expectName := expectName st;
     expectParameter := b;
     expectParameterType := expectParameterType st;
     expectReturnType := expectReturnType st; symbols := symbols st |}.

Definition setExpectParameterType (b : bool) (st : State) : State :=
  {| done := done st; expectName := expectName st;
     expectParameter := expectParameter st;
     expectParameterType := b;
     expectReturnType := expectReturnType st; symbols := symbols st |}.

Definition setExpectReturnType (b : bool) (st : State) : State :=
  {| done := done st; expectName := expectName st;
     expectParameter := expectParameter st;
     expectParameterType := expectParameterType st;
     expectReturnType := b; symbols := symbols st |}.

Definition onSymbols (f : Symbols.t -> Symbols.t) (st : State) : State :=
  {| done := done st; expectName := expectName st;
     expectParameter := expectParameter st;
     expectParameterType := expectParameterType st;
     expectReturnType := expectReturnType st; symbols := f (symbols st) |}.

(** The state at the start of a parse run: every flag cleared. *)
Definition start : State :=
  {| done := false; expectName := false; expectParameter := false;
     expectParameterType := false; expectReturnType := false;
     symbols := Symbols.fresh |}.

Definition kind (st : State) : option SymbolKind.t := Symbols.type (symbols st).

Definition isKind (k : SymbolKind.t) (st : State) : bool :=
  Symbols.is_kind k (symbols st).

Definition labelled (l : string) (token : Token.t) : bool :=
  bool_decide (Token.label token = l).

Section Handlers.

(** [Parser.isName] and [Parser.matchesIdentifier] belong to the base class,
    which is not among the sources; the handlers are embedded over any
    implementation of them. *)
Variable isName : option string -> bool.
Variable matchesIdentifier : option string -> bool.

Definition parseClass (token : Token.t) (st : State) : State :=
  if Grammar.is_ grammar (Token.value token) "class" then
    setExpectName true (onSymbols (Symbols.setType SymbolKind.Class) st)
  else if expectName st && isKind SymbolKind.Class st
          && isName (Token.value token) then
    setDone true
      (setExpectName false (onSymbols (Symbols.setName (Token.value token)) st))
  else st.

(** [symbols.return.type += '[]'] *)
Definition appendBrackets (s : Symbols.t) : Symbols.t :=
  Symbols.setReturnType
    (Some (Js.toString (Return.type (Symbols.return_ s)) +:+ "[]")) s.

Definition parseFunction (token : Token.t) (st : State) : State :=
  if Grammar.is_ grammar (Token.value token) "function" then
    setExpectName true (onSymbols (Symbols.setType SymbolKind.Function) st)
  else if isKind SymbolKind.Function st then
    if labelled "[" token then onSymbols appendBrackets st
    else if expectName st && isName (Token.value token) then
      setExpectName false (onSymbols (Symbols.setName (Token.value token)) st)
    else if labelled ":" token && negb (expectParameter st) then
      setExpectReturnType true st
    else if expectReturnType st && matchesIdentifier (Token.value token) then
      onSymbols (Symbols.setReturnType (Token.value token))
                (setExpectReturnType false st)
    else st
  else st.

(** Under its guard the token value is a string, which is what
    [Js.toString] returns for it. *)
Definition parseParameterName (token : Token.t) (st : State) : State :=
  let notType := negb (expectParameterType st) in
  if expectParameter st && isVariableName (Token.value token) && notType then
    onSymbols
      (Symbols.addParameter
         {| Param.name := Js.toString (Token.value token); Param.val := "";
            Param.type := None |}) st
  else st.

Definition parseParameterType (token : Token.t) (st : State) : State :=
  let st1 :=
    if Token.truthy token
       && isType (Js.toString (Token.value token)) && expectParameter st then
      onSymbols
        (Symbols.addParameter
           {| Param.name := ""; Param.val := "";
              Param.type := Some (Js.toString (Token.value token)) |})
        (setExpectParameterType true st)
    else st in
  if expectParameterType st1 && isVariableName (Token.value token) then
    let i := Symbols.getLastParameterIndex (symbols st1) in
    match Symbols.getParameter i (symbols st1) with
    | Some lastParam =>
        onSymbols
          (fun s =>
             Symbols.setParams
               (<[i := Param.setName (Js.toString (Token.value token)) lastParam]>
                  (Symbols.params s)) s) st1
    | None => st1
    end
  else st1.

Definition parseParameters (token : Token.t) (st : State) : State :=
  if isKind SymbolKind.Function st then
    let st1 := if labelled "(" token then setExpectParameter true st else st in
    let st2 := parseParameterName token st1 in
    let st3 := parseParameterType token st2 in
    if labelled ")" token then setExpectParameter false st3 else st3
  else st.

Definition unset (st : State) : bool := bool_decide (kind st = None).

Definition parseVariable (token : Token.t) (st : State) : State :=
  let st1 :=
    if unset st && isVariableName (Token.value token) then
      onSymbols
        (fun s => Symbols.setType SymbolKind.Variable_
                    (Symbols.setName (Token.value token) s)) st
    else st in
  if unset st1 && Grammar.is_ grammar (Token.value token) "variables" then
    setExpectName true (onSymbols (Symbols.setType SymbolKind.Variable_) st1)
  else if isKind SymbolKind.Variable_ st1 && expectName st1
          && Token.truthy token then
    setExpectName false (onSymbols (Symbols.setName (Token.value token)) st1)
  else st1.

(** *** The parse run *)

#[local] Instance state_eq_dec : EqDecision State.
Proof. solve_decision. Defined.

(** Modelled from the spec: "per token, short-circuiting at the first
    matching rule".  A handler returns nothing, so a rule that matched is one
    that changed the state; with [shortCircuit] cleared every handler sees
    every token, as a loop that calls the four handlers in turn does. *)
Definition attempt (shortCircuit : bool) (handler : State -> State)
    (others : State -> State) (st : State) : State :=
  let st' := handler st in
  if shortCircuit && bool_decide (st' <> st) then st' else others st'.

(** Modelled from the spec: one token of the parse state machine (the loop of
    the base parser is not among the sources): class, function, parameter and
    variable recognition, in this order. *)
Definition dispatch (shortCircuit : bool) (token : Token.t) : State -> State :=
  attempt shortCircuit (parseClass token)
    (attempt shortCircuit (parseFunction token)
       (attempt shortCircuit (parseParameters token) (parseVariable token))).

(** Modelled from the spec: "if done and no parameter list is open, skip
    remaining tokens". *)
Fixpoint run (shortCircuit : bool) (tokens : list Token.t) (st : State) : State :=
  match tokens with
  | [] => st
  | token :: rest =>
      if done st && negb (expectParameter st) then st
      else run shortCircuit rest (dispatch shortCircuit token st)
  end.

(** Modelled from the spec: "returnInfo.present defaults to true for
    Class/Function kinds and false for Variable"; the PHP module overrides
    nothing here. *)
Definition defaultPresent (s : Symbols.t) : Symbols.t :=
  match Symbols.type s with
  | Some SymbolKind.Variable_ => Symbols.setReturnPresent false s
  | Some _ => Symbols.setReturnPresent true s
  | None => s
  end.

(** Modelled from the spec: the nullable post-processing "applied as a final
    transform over every captured type string before the record is
    returned". *)
Definition formatTypes (config : Config.t) (s : Symbols.t) : Symbols.t :=
  Symbols.setReturnType
    (formatNullable config <$> Return.type (Symbols.return_ s))
    (Symbols.setParams
       ((fun p => {| Param.name := Param.name p; Param.val := Param.val p;
                     Param.type := formatNullable config <$> Param.type p |})
          <$> Symbols.params s) s).

(** Modelled from the spec: a parse run over the tokens of one line, from a
    fresh record and cleared flags to the record returned. *)
Definition tokenize (config : Config.t) (shortCircuit : bool)
    (tokens : list Token.t) : Symbols.t :=
  formatTypes config (defaultPresent (symbols (run shortCircuit tokens start))).

End Handlers.

Definition returnPresent (st : State) : bool :=
  Return.present (Symbols.return_ (symbols st)).

(** A token that the class or the function handler takes for a keyword. *)
Definition isKindKeyword (token : Token.t) : bool :=
  Grammar.is_ grammar (Token.value token) "class"
  || Grammar.is_ grammar (Token.value token) "function".

(** The state inside the parameter list of a function whose name has been
    read, as after [function foo(]. *)
Definition inParameters : State :=
  setExpectParameter true
    (onSymbols (fun s => Symbols.setType SymbolKind.Function
                           (Symbols.setName (Some "foo") s)) start).

(** Modelled from the spec: the identifier pattern of the grammar,
    [[a-zA-Z0-9_$\x7f-\xff]+], for the two classifiers of the base class
    below, which serve to run the handlers on concrete lines. *)
Definition identifierChar (c : ascii) : bool :=
  Js.between "a" "z" c || Js.between "A" "Z" c || Js.between "0" "9" c
  || Ascii.eqb c "_" || Ascii.eqb c "$"
  || Js.between (ascii_of_N 127) Js.xff c.

(** Modelled from the spec: [Parser.matchesIdentifier], "the token's text
    matches the identifier pattern"; a token without text does not. *)
Definition matchesIdentifier (name : option string) : bool :=
  match name with
  | None | Some "" => false
  | Some s => Js.all identifierChar s
  end.

(** Modelled from the spec: [Parser.isName], "true if the token's text
    matches the identifier pattern and is not a reserved keyword in any
    grammar category". *)
Definition isName (name : option string) : bool :=
  matchesIdentifier name
  && forallb (fun c => negb (Grammar.is_ grammar name c))
       ["class"; "function"; "modifiers"; "types"; "variables"].

End PHP.

(** ** The renderer of the base parser *)

Module Tokens.

(** The tokenized declaration the renderer works on; [type] is one of
    "class", "function", "variable" or the empty string. *)
Record t := {
  name : string;
  type : string;
  return_ : Return.t;
  params : list Param.t;
}.

(** A record as a parse run first creates it: return information present
    and untyped. *)
Definition make (name type : string) (params : list Param.t) : t :=
  {| name := name; type := type;
     return_ := {| Return.present := true; Return.type := None |};
     params := params |}.

End Tokens.

Module Settings.

(** The comment delimiters of a language (the Settings class is not among the
    sources; the renderer only reads these four strings). *)
Record t := {
  commentOpen : string;
  commentClose : string;
  separator : string;
  eos : string;
}.

End Settings.

Module Parser.

Record t := {
  config : Config.t;
  columns : string;
  settings : Settings.t;
}.

(** The constructor: [columns] is [columnSpacing] blanks. *)
Definition new (config : Config.t) (settings : Settings.t) : t :=
  {| config := config;
     columns := Js.spaces (Config.columnSpacing config);
     settings := settings |}.

(** A parser with the default configuration (two blanks between columns,
    return tag shown) and the default comment delimiters. *)
Definition default : t :=
  new {| Config.columnSpacing := 2; Config.defaultReturnTag := true;
         Config.phpMixedUnionTypes := false |}
      {| Settings.commentOpen := "/**"; Settings.commentClose := " */";
         Settings.separator := " * "; Settings.eos := String (ascii_of_N 10) "" |}.

Definition escape (s : string) : string := Js.replaceFirstDollar s.

(** The locals of one [renderBlock] call that its helpers update: the lines
    pushed so far and the counter captured by [placeholder]. *)
Record Block := {
  blockList : list string;
  count : nat;
}.

Definition push (line : string) (b : Block) : Block :=
  {| blockList := blockList b ++ [line]; count := count b |}.

(** [placeholder(string)]: the text [${count:string}], and [count++]. *)
Definition placeholderText (n : nat) (s : string) : string :=
  "${" +:+ Js.ofNat n +:+ ":" +:+ s +:+ "}".

Definition placeholder (s : string) (b : Block) : string * Block :=
  (placeholderText (count b) s,
   {| blockList := blockList b; count := S (count b) |}).

(** [max('name')] and [max('type')] of [renderParamTags]. *)
Definition maxName (tokens : Tokens.t) : Js.completion nat :=
  Js.reduceMax ((fun param => String.length (Param.name param))
                  <$> Tokens.params tokens).

Definition maxType (tokens : Tokens.t) : Js.completion nat :=
  lengths ← Js.mapProperty
              (fun param => String.length <$> Param.type param)
              (Tokens.params tokens);
  Js.reduceMax lengths.

(** The six pieces of one [@param] line, in the order of the template
    literal that joins them. *)
Record Row := {
  tag : string;
  typeField : string;
  tSpace : string;
  nameField : string;
  pSpace : string;
  desc : string;
}.

Definition line (r : Row) : string :=
  tag r +:+ typeField r +:+ tSpace r +:+ nameField r +:+ pSpace r +:+ desc r.

(** The body of the loop over the parameters. *)
Definition renderParam (this : t) (tokens : Tokens.t) (param : Param.t)
    (b : Block) : Js.completion (Row * Block) :=
  let column := Config.columnSpacing (config this) in
  m ← maxName tokens;
  let diff := m - String.length (Param.name param) in
  let pSpace := Js.spaces (column + diff) in
  typeDiff ← match Param.type param with
             | Some ty => mt ← maxType tokens;
                          Js.Normal (mt - String.length ty)
             | None => Js.Normal 1
             end;
  let tSpace := Js.spaces (column + typeDiff) in
  let cSpace := columns this in
  let (type, b1) :=
    match Param.type param with
    | Some ty => placeholder (escape ty) b
    | None => placeholder "[type]" b
    end in
  let name := escape (Param.name param) in
  let (desc, b2) := placeholder ("[" +:+ name +:+ " description]") b1 in
  Js.Normal
    ({| tag := "@param" +:+ cSpace +:+ " "; typeField := type;
        tSpace := tSpace; nameField := name; pSpace := pSpace; desc := desc |},
     b2).

Fixpoint renderParams (this : t) (tokens : Tokens.t) (params : list Param.t)
    (b : Block) : Js.completion Block :=
  match params with
  | [] => Js.Normal b
  | param :: rest =>
      rb ← renderParam this tokens param b;
      renderParams this tokens rest (push (line (fst rb)) (snd rb))
  end.

Definition isVariable (tokens : Tokens.t) : bool :=
  bool_decide (Tokens.type tokens = "variable").

Definition renderParamTags (this : t) (tokens : Tokens.t) (b : Block)
    : Js.completion Block :=
  if negb (bool_decide (length (Tokens.params tokens) = 0))
     && negb (isVariable tokens) then
    renderParams this tokens (Tokens.params tokens) (push "" b)
  else Js.Normal b.

Definition renderReturnTag (this : t) (tokens : Tokens.t) (b : Block) : Block :=
  let defaultReturnTag := Config.defaultReturnTag (config this) in
  if Return.present (Tokens.return_ tokens) && defaultReturnTag
     && negb (isVariable tokens) then
    let type :=
      if Js.truthy (Return.type (Tokens.return_ tokens)) then
        escape (Js.toString (Return.type (Tokens.return_ tokens)))
      else "[type]" in
    let b1 := push "" b in
    let (p, b2) := placeholder type b1 in
    push ("@return" +:+ columns this +:+ p) b2
  else b.

Definition renderVarTag (this : t) (tokens : Tokens.t) (b : Block) : Block :=
  if isVariable tokens then
    let b1 := push "" b in
    let (p, b2) := placeholder "[type]" b1 in
    push ("@var" +:+ columns this +:+ p) b2
  else b.

(** The lines of the block and the final counter, before they are wrapped in
    the comment delimiters. *)
Definition renderLines (this : t) (tokens : Tokens.t) : Js.completion Block :=
  let start := {| blockList := []; count := 1 |} in
  let (d, b0) :=
    placeholder ("[" +:+ escape (Tokens.name tokens) +:+ " description]") start in
  b1 ← renderParamTags this tokens (push d b0);
  let b2 := renderReturnTag this tokens b1 in
  Js.Normal (renderVarTag this tokens b2).

Definition wrap (this : t) (b : Block) : string :=
  let eos := Settings.eos (settings this) in
  Settings.commentOpen (settings this) +:+ eos
  +:+ Js.join eos ((fun blockLine => Settings.separator (settings this) +:+ blockLine)
                     <$> blockList b)
  +:+ eos +:+ Settings.commentClose (settings this).

Definition renderBlock (this : t) (tokens : Tokens.t) : Js.completion string :=
  b ← renderLines this tokens;
  Js.Normal (wrap this b).

(** *** Notions the properties of the renderer are stated with *)

(** The rows the loop of [renderParamTags] pushes, piece by piece. *)
Fixpoint paramRows (this : t) (tokens : Tokens.t) (params : list Param.t)
    (b : Block) : Js.completion (list Row) :=
  match params with
  | [] => Js.Normal []
  | param :: rest =>
      rb ← renderParam this tokens param b;
      rows ← paramRows this tokens rest (push (line (fst rb)) (snd rb));
      Js.Normal (fst rb :: rows)
  end.

(** The text shown in the type column: the type, or the generic "[type]". *)
Definition typeText (param : Param.t) : string :=
  match Param.type param with
  | Some ty => ty
  | None => "[type]"
  end.

Definition widest (texts : list string) : nat :=
  list_max (String.length <$> texts).

Definition typed (param : Param.t) : Prop := is_Some (Param.type param).
Definition untyped (param : Param.t) : Prop := Param.type param = None.

(** Width of the name column and of the type column, gutter included, as
    the text is shown once the placeholders are expanded.  Untyped lists
    get one more blank after "[type]". *)
Definition nameWidth (this : t) (tokens : Tokens.t) : nat :=
  widest (Param.name <$> Tokens.params tokens)
  + Config.columnSpacing (config this).

Definition typeWidth (this : t) (tokens : Tokens.t) : nat :=
  widest (typeText <$> Tokens.params tokens)
  + Config.columnSpacing (config this)
  + (if forallb (fun param => bool_decide (untyped param)) (Tokens.params tokens)
     then 1 else 0).

(** The row of a parameter, given the blanks after its type and after its
    name and the number of its first placeholder. *)
Definition rowOf (this : t) (typeBlanks nameBlanks n : nat) (param : Param.t)
    : Row :=
  {| tag := "@param" +:+ columns this +:+ " ";
     typeField := placeholderText n (escape (typeText param));
     tSpace := Js.spaces typeBlanks;
     nameField := escape (Param.name param);
     pSpace := Js.spaces nameBlanks;
     desc := placeholderText (S n)
               ("[" +:+ escape (Param.name param) +:+ " description]") |}.

(** The blanks the loop computes when it does not throw. *)
Definition nameBlanks (this : t) (tokens : Tokens.t) (param : Param.t) : nat :=
  Config.columnSpacing (config this)
  + (widest (Param.name <$> Tokens.params tokens)
     - String.length (Param.name param)).

Definition typeBlanks (this : t) (tokens : Tokens.t) (param : Param.t) : nat :=
  Config.columnSpacing (config this)
  + match Param.type param with
    | Some ty => widest (typeText <$> Tokens.params tokens) - String.length ty
    | None => 1
    end.

Fixpoint rowsFrom (this : t) (tokens : Tokens.t) (n : nat)
    (params : list Param.t) : list Row :=
  match params with
  | [] => []
  | param :: rest =>
      rowOf this (typeBlanks this tokens param) (nameBlanks this tokens param)
            n param
      :: rowsFrom this tokens (S (S n)) rest
  end.

(** Whether the return tag is emitted, and the text seeded in it. *)
Definition returnShown (this : t) (tokens : Tokens.t) : bool :=
  Return.present (Tokens.return_ tokens)
  && Config.defaultReturnTag (config this) && negb (isVariable tokens).

Definition returnText (tokens : Tokens.t) : string :=
  if Js.truthy (Return.type (Tokens.return_ tokens)) then
    escape (Js.toString (Return.type (Tokens.return_ tokens)))
  else "[type]".

(** [Parser.tokenize] of the base class: the empty record. *)
Definition tokenize (code : string) : Tokens.t :=
  {| Tokens.name := ""; Tokens.type := ""; Tokens.params := [];
     Tokens.return_ := {| Return.present := true; Return.type := None |} |}.

End Parser.

(** ** The language registry *)

Module Snippets.

(** The parser classes the registry maps to. *)
Inductive ParserClass := C | Java | PHP | SCSS | TypeScript.

Definition languageList : gmap string ParserClass :=
  <["c" := C]> (<["java" := Java]> (<["javascript" := TypeScript]>
  (<["php" := PHP]> (<["scss" := SCSS]> (<["typescript" := TypeScript]>
  (<["vue" := TypeScript]> ∅)))))).

(** The identifiers the registry has as own properties. *)
Definition registered : list string :=
  ["c"; "java"; "javascript"; "php"; "scss"; "typescript"; "vue"].

(** The instance returned is identified by its class. *)
Definition getParserFromLanguageID (language : string)
    : Js.completion ParserClass :=
  match languageList !! language with
  | None => Js.Throw (Js.Error ("This language is not supported: " +:+ language))
  | Some parser => Js.Normal parser
  end.

End Snippets.

(** ** The lookups of the base parser *)

Module Lexed.

(** A lexed object (the Lexed interface is not among the sources): its
    [type], the [index] that [findByType] writes ([None] until then), and its
    other fields, which the lookup does not read. *)
Record t (A : Type) := {
  type : string;
  index : option nat;
  fields : A;
}.

Arguments type {A} _.
Arguments index {A} _.
Arguments fields {A} _.

Definition setIndex {A} (i : nat) (o : t A) : t A :=
  {| type := type o; index := Some i; fields := fields o |}.

(** The element at position [j] once the first [n] rounds have run. *)
Definition marked {A} (ty : string) (n j : nat) (o : t A) : t A :=
  if bool_decide (j < n /\ type o = ty) then setIndex j o else o.

(** One round of the loop of [findByType]: the result so far and the array,
    whose element [i] is updated in place when its type matches. *)
Definition visit {A} (ty : string) (state : option (t A) * list (t A))
    (i : nat) : option (t A) * list (t A) :=
  match state.2 !! i with
  | Some o =>
      if bool_decide (type o = ty) then
        (Some (setIndex i o), <[i := setIndex i o]> state.2)
      else state
  | None => state
  end.

(** [Parser.findByType]: the result ([None] for [null]) and the array as the
    call leaves it. *)
Definition findByType {A} (ty : string) (lexedObjs : list (t A))
    : option (t A) * list (t A) :=
  foldl (visit ty) (None, lexedObjs) (seq 0 (length lexedObjs)).

End Lexed.

Module Grammer.

(** A property of the settings' grammar object (the Grammer interface is not
    among the sources): a keyword or pattern string, or a list of
    keywords. *)
Inductive value :=
  | Str (s : string)
  | Arr (l : list string).

#[global] Instance value_eq_dec : EqDecision value.
Proof. solve_decision. Defined.

(** [type === 'modifiers' || type === 'variables' || type === 'types'] *)
Definition isList (type : string) : bool :=
  bool_decide (type = "modifiers") || bool_decide (type = "variables")
  || bool_decide (type = "types").

(** The values [v[0]], ..., [v[v.length - 1]]: the elements of an array, the
    characters of a string. *)
Definition elements (v : value) : list string :=
  match v with
  | Arr l => l
  | Str s => (fun c => String c "") <$> list_ascii_of_string s
  end.

(** The last loop: some property of the object is the token itself. *)
Definition scan (grammer : gmap string value) (token : string) : bool :=
  existsb (fun kv => bool_decide (kv.2 = Str token)) (map_to_list grammer).

(** [Parser.matchesGrammer]; an omitted [type] is the empty string. *)
Definition matchesGrammer (grammer : gmap string value) (token type : string)
    : bool :=
  match grammer !! type with
  | Some v =>
      if isList type then
        if existsb (fun e => bool_decide (e = token)) (elements v) then true
        else scan grammer token
      else bool_decide (v = Str token)
  | None => scan grammer token
  end.

End Grammer.

(** ** Notions for the parameter handlers *)

Module Text.

Definition notDollar (c : ascii) : bool := negb (Ascii.eqb c "$").

Definition isDigit (c : ascii) : bool := Js.between "0" "9" c.

End Text.

Module ParameterList.

(** [parseParameters] over the tokens of a line, in order. *)
Definition parseAll (tokens : list Token.t) (st : PHP.State) : PHP.State :=
  foldl (fun st token => PHP.parseParameters token st) st tokens.

(** The parameter list with the name of its last element replaced, as
    [lastParam.name = token.value] leaves it; an empty list has no last
    element. *)
Definition renameLast (n : string) (params : list Param.t) : list Param.t :=
  match params !! (length params - 1) with
  | Some lastParam => <[length params - 1 := Param.setName n lastParam]> params
  | None => params
  end.

(** Whether the list is open once the token's own [(] has been seen. *)
Definition opened (token : Token.t) (st : PHP.State) : bool :=
  PHP.labelled "(" token || PHP.expectParameter st.

(** A token [parseParameterType] takes for a type. *)
Definition typeShaped (token : Token.t) : bool :=
  Token.truthy token && PHP.isType (Js.toString (Token.value token)).

(** The untyped Parameter a variable-name token stands for. *)
Definition untypedParam (token : Token.t) : option Param.t :=
  if PHP.isVariableName (Token.value token)
  then Some (Param.make (Js.toString (Token.value token)) None)
  else None.

(** The tokens of [type $name,] and the Parameter they stand for. *)
Definition typedTokens (p : string * string) : list Token.t :=
  [Token.name p.1; Token.name p.2; Token.punct ","].

Definition typedParam (p : string * string) : Param.t :=
  Param.make p.2 (Some p.1).

End ParameterList.

(** ** Notions for the tab stops of a rendered block *)

Module TabStops.

(** A text free of the opening brace of a placeholder, as identifiers,
    type names and comment delimiters are. *)
Definition plain (s : string) : bool :=
  Js.all (fun c => negb (Ascii.eqb c "{")) s.

(** The decimal digits a text begins with, and the number they write. *)
Fixpoint digits (s : string) : string :=
  match s with
  | String c rest => if Text.isDigit c then String c (digits rest) else ""
  | "" => ""
  end.

Definition number (s : string) : nat :=
  match NilZero.uint_of_string (digits s) with
  | Some d => Nat.of_uint d
  | None => 0
  end.

(** The number of the placeholder a text opens with, if it opens with "${". *)
Definition opening (s : string) : option nat :=
  match s with
  | String c (String d after) =>
      if Ascii.eqb c "$" && Ascii.eqb d "{" then Some (number after) else None
  | _ => None
  end.

(** The tab stops of a snippet whose texts are plain: the number after
    each "${", in the order of the text. *)
Fixpoint tabStops (s : string) : list nat :=
  match s with
  | "" => []
  | String c rest =>
      match opening (String c rest) with
      | Some n => n :: tabStops rest
      | None => tabStops rest
      end
  end.

(** The delimiters and the column blanks of a parser, and the texts of a
    record that reach the rendered block, are plain. *)
Definition plainParser (this : Parser.t) : bool :=
  plain (Settings.commentOpen (Parser.settings this))
  && plain (Settings.commentClose (Parser.settings this))
  && plain (Settings.separator (Parser.settings this))
  && plain (Settings.eos (Parser.settings this))
  && plain (Parser.columns this).

Definition plainParam (param : Param.t) : bool :=
  plain (Param.name param) && plain (Parser.typeText param).

Definition plainRecord (tokens : Tokens.t) : bool :=
  plain (Tokens.name tokens)
  && forallb plainParam (Tokens.params tokens)
  && plain (Parser.returnText tokens).

(** The number of placeholders of a block: the description, two for each
    parameter of a record that is no variable, the return tag, the var
    tag. *)
Definition count (this : Parser.t) (tokens : Tokens.t) : nat :=
  1
  + (if Parser.isVariable tokens then 0 else 2 * length (Tokens.params tokens))
  + (if Parser.returnShown this tokens then 1 else 0)
  + (if Parser.isVariable tokens then 1 else 0).

(** A text that does not begin with a brace. *)
Definition unopened (t : string) : Prop :=
  match t with
  | String c _ => Ascii.eqb c "{" = false
  | "" => True
  end.

(** The tab stops a piece of text contributes wherever it stands. *)
Definition emits (a : string) (l : list nat) : Prop :=
  forall t, unopened t ->
    unopened (a +:+ t) /\ tabStops (a +:+ t) = (l ++ tabStops t)%list.

(** The lines and the counter of a block in the making: the lines so far
    carry the tab stops 1, 2, ... up to the counter, which is the next
    number to give out. *)
Definition numbered (b : Parser.Block) : Prop :=
  1 <= Parser.count b
  /\ exists ls, Forall2 emits (Parser.blockList b) ls
                /\ concat ls = seq 1 (Parser.count b - 1).

End TabStops.

(** * Properties *)

(** ** The PHP classifiers *)

Section Classifier.

Lemma is_category (g : Grammar.t) (s c : string) (l : list string) :
  Grammar.category g c = Some l ->
  Grammar.is_ g (Some s) c = true <-> s ∈ l.
Proof.
  intros Hc. unfold Grammar.is_. rewrite Hc. apply bool_decide_eq_true.
Qed.

Lemma notReserved_iff (type : string) :
  PHP.notReserved type = true <-> type ∉ PHP.reserved.
Proof.
  unfold PHP.notReserved, PHP.reserved. cbn [forallb].
  rewrite !andb_true_iff, !negb_true_iff, !not_elem_of_app.
  rewrite <- !not_true_iff_false.
  rewrite (is_category _ _ "function" _ eq_refl),
          (is_category _ _ "class" _ eq_refl),
          (is_category _ _ "modifiers" _ eq_refl),
          (is_category _ _ "variables" _ eq_refl).
  tauto.
Qed.

Lemma types_not_reserved (type : string) :
  type ∈ Grammar.types PHP.grammar -> PHP.notReserved type = true.
Proof.
  cbn [Grammar.types PHP.grammar]. rewrite !elem_of_cons, elem_of_nil.
  intros H. repeat (destruct H as [->|H]; [reflexivity|]). destruct H.
Qed.

Lemma classExpression_shape (type : string) :
  PHP.classExpression type = true <->
  exists c rest, type = String c rest /\ PHP.classFirst c = true
                 /\ Js.all PHP.classNext rest = true.
Proof.
  destruct type as [|c rest]; cbn.
  - split; [discriminate | intros (? & ? & ? & _); discriminate].
  - rewrite andb_true_iff. split.
    + intros [? ?]. eauto.
    + intros (? & ? & [= -> ->] & ? & ?). auto.
Qed.

(** A numeric literal is never a type, so for the type test of
    [parseParameterType] a token value counts exactly when it is a
    non-empty text. *)
Lemma truthy_isType (token : Token.t) :
  Token.truthy token && PHP.isType (Js.toString (Token.value token))
  = Js.truthy (Token.value token)
    && PHP.isType (Js.toString (Token.value token)).
Proof.
  unfold Token.truthy.
  destruct (bool_decide (Token.label token = "num")); [|reflexivity].
  destruct (Token.value token) as [s|]; [|reflexivity].
  destruct (decide (s = "0")) as [->|Hz]; [reflexivity|].
  rewrite (bool_decide_eq_false_2 _ Hz).
  destruct s; reflexivity.
Qed.

End Classifier.

(** C6: a type that begins with the sigil [?] becomes "mixed" when the
    mixed-union-types flag is set and otherwise loses the sigil and gains
    "|null"; any other type is returned unchanged. *)
Theorem formatNullable_cases (config : Config.t) (type : string) :
  PHP.formatNullable config type =
    match type with
    | String "?" rest =>
        if Config.phpMixedUnionTypes config then "mixed" else rest +:+ "|null"
    | _ => type
    end.
Proof.
  unfold PHP.formatNullable, PHP.nullable_test, PHP.nullable_remove.
  destruct type as [|c rest]; [reflexivity|].
  destruct (Ascii.eqb_spec c "?") as [->|Hne]; [reflexivity|].
  destruct c as [[] [] [] [] [] [] [] []]; try reflexivity. congruence.
Qed.

(** C2, as the code has it: [isType] holds exactly of the built-in types and
    of the texts that match the class-name pattern (first character a letter
    of either case, an underscore or a character in 0x80-0xff, then letters,
    digits, underscores or such characters) and are no keyword of the class,
    function, modifier or variable categories; so a lowercase identifier that
    is no keyword is a type. *)
Theorem isType_iff (type : string) :
  (PHP.isType type = true <->
     type ∈ Grammar.types PHP.grammar
     \/ (PHP.classExpression type = true /\ type ∉ PHP.reserved))
  /\ (forall c rest,
        type = String c rest -> Js.between "a" "z" c = true ->
        Js.all PHP.classNext rest = true -> type ∉ PHP.reserved ->
        PHP.isType type = true).
Proof.
  assert (Hiff : PHP.isType type = true <->
     type ∈ Grammar.types PHP.grammar
     \/ (PHP.classExpression type = true /\ type ∉ PHP.reserved)).
  { unfold PHP.isType.
    rewrite andb_true_iff, orb_true_iff, notReserved_iff.
    rewrite (is_category _ _ "types" _ eq_refl). split.
    - intros [Hr [Ht|Hc]]; auto.
    - intros [Ht|[Hc Hr]]; [|auto].
      split; [|auto]. apply notReserved_iff, types_not_reserved, Ht. }
  split; [exact Hiff|].
  intros c rest -> Hc Hrest Hr. apply Hiff. right. split; [|exact Hr].
  apply classExpression_shape. exists c, rest. split; [reflexivity|].
  split; [|exact Hrest]. unfold PHP.classFirst. rewrite Hc. reflexivity.
Qed.

Lemma isType_iff_witness :
  PHP.isType "foo" = true /\ "foo" ∉ Grammar.types PHP.grammar.
Proof.
  split.
  - apply (proj2 (isType_iff "foo") "f"%char "oo" eq_refl eq_refl eq_refl).
    compute_done.
  - compute_done.
Defined.

(** C2, as stated, fails: "foo" is lowercase and no built-in type, yet the
    code takes it for a type. *)
Lemma isType_lowercase_counterexample :
  PHP.isType "foo" = true /\ PHP.isType_specified "foo" = false.
Proof. split; reflexivity. Qed.

(** ** The renderer *)

Section Completion.

Context {A B : Type}.

Lemma bind_normal (m : Js.completion A) (k : A -> Js.completion B) (y : B) :
  (x ← m; k x) = Js.Normal y <-> exists x, m = Js.Normal x /\ k x = Js.Normal y.
Proof.
  unfold mbind, completion_bind, Js.bind. destruct m as [a|e].
  - split; [eauto | intros (x & [= ->] & H); exact H].
  - split; [discriminate | intros (x & [=] & _)].
Qed.

Lemma mapProperty_throw (f : A -> option B) (l : list A) :
  (exists x, x ∈ l /\ f x = None) ->
  Js.mapProperty f l = Js.Throw Js.TypeError.
Proof.
  induction l as [|a l IH]; intros (x & Hx & Hf).
  - inversion Hx.
  - cbn. destruct (f a) eqn:Ha; [|reflexivity].
    apply elem_of_cons in Hx as [->|Hx]; [congruence|].
    rewrite IH by eauto. reflexivity.
Qed.

Lemma mapProperty_normal (f : A -> option B) (g : A -> B) (l : list A) :
  (forall x, x ∈ l -> f x = Some (g x)) ->
  Js.mapProperty f l = Js.Normal (g <$> l).
Proof.
  induction l as [|a l IH]; intros H; [reflexivity|].
  cbn. rewrite (H a) by (apply elem_of_cons; by left).
  rewrite IH; [reflexivity|]. intros x Hx. apply H, elem_of_cons. by right.
Qed.

End Completion.

Section Maxima.

Import Parser.

Lemma foldl_max_list_max (x : nat) (l : list nat) :
  foldl Nat.max x l = list_max (x :: l).
Proof.
  revert x. induction l as [|y l IH]; intros x; cbn.
  - lia.
  - rewrite IH. cbn. lia.
Qed.

Lemma reduceMax_normal (l : list nat) :
  l <> [] -> Js.reduceMax l = Js.Normal (list_max l).
Proof.
  destruct l as [|x l]; [congruence|]. intros _. unfold Js.reduceMax.
  by rewrite foldl_max_list_max.
Qed.

Lemma reduceMax_throw (l : list nat) (e : Js.exception) :
  Js.reduceMax l = Js.Throw e -> e = Js.TypeError.
Proof. destruct l; cbn; congruence. Qed.

Lemma widest_bound {T} (f : T -> string) (l : list T) (x : T) :
  x ∈ l -> String.length (f x) <= widest (f <$> l).
Proof.
  intros Hx. unfold widest.
  pose proof (proj1 (list_max_le (String.length <$> (f <$> l)) _) (le_n _)) as H.
  rewrite List.Forall_forall in H. apply H.
  apply list_elem_of_In, list_elem_of_fmap_2, list_elem_of_fmap_2, Hx.
Qed.

Lemma maxName_normal (tokens : Tokens.t) :
  Tokens.params tokens <> [] ->
  maxName tokens = Js.Normal (widest (Param.name <$> Tokens.params tokens)).
Proof.
  intros H. unfold maxName, widest. rewrite reduceMax_normal.
  - by rewrite <- list_fmap_compose.
  - destruct (Tokens.params tokens); [congruence|discriminate].
Qed.

Lemma maxType_throw (tokens : Tokens.t) :
  (exists q, q ∈ Tokens.params tokens /\ untyped q) ->
  maxType tokens = Js.Throw Js.TypeError.
Proof.
  intros (q & Hq & Hn). unfold maxType. rewrite mapProperty_throw; [reflexivity|].
  exists q. split; [exact Hq|]. unfold untyped in Hn. by rewrite Hn.
Qed.

Lemma typeText_typed (p : Param.t) :
  typed p -> Param.type p = Some (typeText p).
Proof. intros [ty H]. unfold typeText. by rewrite H. Qed.

Lemma maxType_normal (tokens : Tokens.t) :
  Tokens.params tokens <> [] -> Forall typed (Tokens.params tokens) ->
  maxType tokens = Js.Normal (widest (typeText <$> Tokens.params tokens)).
Proof.
  intros Hne Hall. unfold maxType.
  rewrite (mapProperty_normal _ (fun p => String.length (typeText p))).
  - cbn. rewrite reduceMax_normal.
    + unfold widest. by rewrite <- list_fmap_compose.
    + destruct (Tokens.params tokens); [congruence|discriminate].
  - intros p Hp. rewrite Forall_forall in Hall.
    rewrite (typeText_typed p) by auto. reflexivity.
Qed.

End Maxima.

Section Loop.

Import Parser.

Variable this : Parser.t.
Variable tokens : Tokens.t.

Lemma renderParam_row (p : Param.t) (b : Block) :
  Tokens.params tokens <> [] ->
  (typed p -> Forall typed (Tokens.params tokens)) ->
  renderParam this tokens p b =
    Js.Normal (rowOf this (typeBlanks this tokens p) (nameBlanks this tokens p)
                 (count b) p,
               {| blockList := blockList b; count := S (S (count b)) |}).
Proof.
  intros Hne Ht. unfold renderParam, typeBlanks, nameBlanks, rowOf, typeText.
  rewrite (maxName_normal _ Hne). cbn.
  destruct (Param.type p) as [ty|] eqn:Hty; [|reflexivity].
  rewrite (maxType_normal _ Hne); [reflexivity|].
  apply Ht. by exists ty.
Qed.

Lemma renderParam_counts (p : Param.t) (b b' : Block) (r : Row) :
  renderParam this tokens p b = Js.Normal (r, b') ->
  blockList b' = blockList b /\ count b' = S (S (count b))
  /\ (exists s, typeField r = placeholderText (count b) s)
  /\ (exists s, desc r = placeholderText (S (count b)) s).
Proof.
  unfold renderParam. intros H.
  apply bind_normal in H as (m & _ & H).
  apply bind_normal in H as (d & _ & H).
  destruct (Param.type p); cbn in H; injection H as <- <-; cbn; eauto 6.
Qed.

Lemma mapProperty_exception {A B} (f : A -> option B) (l : list A)
    (e : Js.exception) :
  Js.mapProperty f l = Js.Throw e -> e = Js.TypeError.
Proof.
  revert e. induction l as [|a l IH]; cbn; [discriminate|]. intros e.
  destruct (f a); [|congruence].
  destruct (Js.mapProperty f l); cbn; [discriminate|].
  intros [= <-]. by apply IH.
Qed.

Lemma maxType_exception (e : Js.exception) :
  maxType tokens = Js.Throw e -> e = Js.TypeError.
Proof.
  unfold maxType, mbind, completion_bind, Js.bind.
  destruct (Js.mapProperty _ _) as [lengths|e'] eqn:Hmap.
  - apply reduceMax_throw.
  - intros [= <-]. eapply mapProperty_exception, Hmap.
Qed.

Lemma renderParam_throw (p : Param.t) (b : Block) (e : Js.exception) :
  renderParam this tokens p b = Js.Throw e -> e = Js.TypeError.
Proof.
  unfold renderParam, maxName.
  destruct (Js.reduceMax _) as [m|e'] eqn:Hm; cbn;
    [|intros [= <-]; eapply reduceMax_throw, Hm].
  destruct (Param.type p); cbn; [|discriminate].
  destruct (maxType tokens) as [mt|e'] eqn:Hmt; cbn; [discriminate|].
  intros [= <-]. eapply maxType_exception, Hmt.
Qed.

Lemma renderParams_uniform (l : list Param.t) (b : Block) :
  Tokens.params tokens <> [] ->
  (forall p, p ∈ l -> typed p -> Forall typed (Tokens.params tokens)) ->
  paramRows this tokens l b = Js.Normal (rowsFrom this tokens (count b) l)
  /\ renderParams this tokens l b =
       Js.Normal {| blockList := blockList b
                                 ++ (line <$> rowsFrom this tokens (count b) l);
                    count := count b + 2 * length l |}.
Proof.
  intros Hne. revert b. induction l as [|p l IH]; intros b Hl.
  - cbn. rewrite app_nil_r, Nat.add_0_r. by destruct b.
  - cbn [paramRows renderParams rowsFrom].
    rewrite renderParam_row; [|exact Hne|apply Hl, elem_of_cons; by left].
    cbn [mbind completion_bind Js.bind fst snd].
    destruct (IH (push (line (rowOf this (typeBlanks this tokens p)
                                (nameBlanks this tokens p) (count b) p))
                       {| blockList := blockList b; count := S (S (count b)) |}))
      as [IH1 IH2].
    { intros q Hq. apply Hl, elem_of_cons. by right. }
    cbn in IH1, IH2. rewrite IH1, IH2. cbn. split; [reflexivity|].
    rewrite <- app_assoc. do 2 f_equal. lia.
Qed.

Lemma rowsFrom_lookup (n : nat) (l : list Param.t) (i : nat) (p : Param.t) :
  l !! i = Some p ->
  rowsFrom this tokens n l !! i =
    Some (rowOf this (typeBlanks this tokens p) (nameBlanks this tokens p)
            (n + 2 * i) p).
Proof.
  revert n i. induction l as [|q l IH]; intros n [|i]; cbn; try discriminate.
  - intros [= ->]. by rewrite Nat.add_0_r.
  - intros H. rewrite (IH _ _ H). do 2 f_equal. lia.
Qed.

Lemma rowsFrom_length (n : nat) (l : list Param.t) :
  length (rowsFrom this tokens n l) = length l.
Proof. revert n. induction l as [|q l IH]; intros n; cbn; [|rewrite IH]; done. Qed.

Lemma renderParams_rows (l : list Param.t) (b b' : Block) :
  renderParams this tokens l b = Js.Normal b' ->
  exists rows,
    paramRows this tokens l b = Js.Normal rows
    /\ blockList b' = (blockList b ++ (line <$> rows))%list
    /\ count b' = count b + 2 * length rows
    /\ length rows = length l
    /\ forall i r, rows !! i = Some r ->
         (exists s, typeField r = placeholderText (count b + 2 * i) s)
         /\ (exists s, desc r = placeholderText (count b + 2 * i + 1) s).
Proof.
  revert b. induction l as [|p l IH]; intros b; cbn [renderParams paramRows].
  - intros [= <-]. exists []. cbn. rewrite app_nil_r.
    repeat split; try lia. all: intros; discriminate.
  - intros H. apply bind_normal in H as ([r b1] & Hp & H). rewrite Hp.
    cbn [fst snd] in *. cbn [mbind completion_bind Js.bind fst snd].
    destruct (renderParam_counts _ _ _ _ Hp) as (Hbl & Hc & Ht & Hd).
    destruct (IH _ H) as (rows & Hrows & Hbl' & Hc' & Hlen & Hi).
    rewrite Hrows. cbn [Js.bind]. exists (r :: rows). cbn in *.
    split; [reflexivity|]. rewrite Hbl', Hc', Hbl, Hc, <- app_assoc.
    split; [reflexivity|]. split; [lia|]. split; [lia|].
    intros [|i] r'; cbn.
    + intros [= <-]. rewrite !Nat.add_0_r. split; [exact Ht|].
      rewrite Nat.add_1_r. exact Hd.
    + intros Hr. destruct (Hi _ _ Hr) as [[s Hs] [s' Hs']]. rewrite Hc in Hs, Hs'.
      split; [exists s|exists s'].
      * rewrite Hs. f_equal. lia.
      * rewrite Hs'. f_equal. lia.
Qed.

Lemma renderParams_throw (l : list Param.t) (b : Block) :
  (exists q, q ∈ Tokens.params tokens /\ untyped q) ->
  (exists p, p ∈ l /\ typed p) ->
  renderParams this tokens l b = Js.Throw Js.TypeError.
Proof.
  intros Hq. revert b. induction l as [|a l IH]; intros b (p & Hp & Hty).
  - inversion Hp.
  - cbn [renderParams].
    destruct (renderParam this tokens a b) as [[r b1]|e] eqn:Ha.
    + cbn. apply IH. exists p. split; [|exact Hty].
      apply elem_of_cons in Hp as [->|Hp]; [|exact Hp]. exfalso.
      unfold renderParam in Ha. apply bind_normal in Ha as (m & _ & Ha).
      apply bind_normal in Ha as (d & Hd & _).
      destruct Hty as [ty Hty]. rewrite Hty in Hd.
      rewrite (maxType_throw _ Hq) in Hd. discriminate.
    + cbn. f_equal. eapply renderParam_throw, Ha.
Qed.

End Loop.

Lemma widest_constant {T} (f : T -> string) (l : list T) (k : nat) :
  l <> [] -> (forall q, q ∈ l -> String.length (f q) = k) ->
  Parser.widest (f <$> l) = k.
Proof.
  induction l as [|a l IH]; [congruence|]. intros _ H.
  change (Parser.widest (f <$> a :: l))
    with (Nat.max (String.length (f a)) (Parser.widest (f <$> l))).
  rewrite (H a) by (apply elem_of_cons; by left).
  destruct l as [|a' l']; [cbn; lia|].
  rewrite IH; [lia|discriminate|].
  intros q Hq. apply H, elem_of_cons. by right.
Qed.

Lemma typeWidth_row (this : Parser.t) (tokens : Tokens.t) (p : Param.t) :
  Forall Parser.typed (Tokens.params tokens)
  \/ Forall Parser.untyped (Tokens.params tokens) ->
  p ∈ Tokens.params tokens ->
  String.length (Parser.typeText p) + Parser.typeBlanks this tokens p
  = Parser.typeWidth this tokens.
Proof.
  intros Hu Hp. unfold Parser.typeBlanks, Parser.typeWidth.
  pose proof (Parser_widest_bound := widest_bound Parser.typeText _ _ Hp).
  destruct Hu as [Ht|Hn].
  - rewrite Forall_forall in Ht. destruct (Ht _ Hp) as [ty Hty].
    assert (Hf : forallb (fun param => bool_decide (Parser.untyped param))
                   (Tokens.params tokens) = false).
    { apply not_true_is_false. intros Hall. rewrite forallb_forall in Hall.
      apply list_elem_of_In, Hall, bool_decide_eq_true in Hp.
      unfold Parser.untyped in Hp. congruence. }
    rewrite Hf. unfold Parser.typeText in *. rewrite Hty in *. lia.
  - assert (Hf : forallb (fun param => bool_decide (Parser.untyped param))
                   (Tokens.params tokens) = true).
    { apply forallb_forall. intros q Hq. apply bool_decide_eq_true.
      rewrite Forall_forall in Hn. apply Hn, list_elem_of_In, Hq. }
    rewrite Hf. rewrite Forall_forall in Hn.
    assert (Hw : Parser.widest (Parser.typeText <$> Tokens.params tokens) = 6).
    { apply widest_constant.
      - intros Hnil. rewrite Hnil in Hp. inversion Hp.
      - intros q Hq. unfold Parser.typeText. rewrite (Hn _ Hq). reflexivity. }
    rewrite Hw. unfold Parser.typeText. rewrite (Hn _ Hp). cbn. lia.
Qed.

Lemma nameWidth_row (this : Parser.t) (tokens : Tokens.t) (p : Param.t) :
  p ∈ Tokens.params tokens ->
  String.length (Param.name p) + Parser.nameBlanks this tokens p
  = Parser.nameWidth this tokens.
Proof.
  intros Hp. unfold Parser.nameBlanks, Parser.nameWidth.
  pose proof (widest_bound Param.name _ _ Hp). lia.
Qed.

(** C4: for a record that is no variable, with a non-empty parameter list
    in which every parameter has a type or none has, each [@param] line is
    the tag, the type placeholder, blanks, the escaped name, blanks and the
    description placeholder; the type text with its blanks takes the same
    width on every row (the widest type text plus the column spacing, one
    more when the list is untyped), the name with its blanks likewise (the
    widest name plus the column spacing), and the blanks number at least
    the column spacing: the fields of the text shown once the placeholders
    are expanded start at the same columns on every row.  But a list that
    mixes typed and untyped parameters, as that of [function foo($a, int $b)],
    gets no lines at all: the loop throws a TypeError at the first
    parameter that has a type. *)
Theorem renderParamTags_columns :
  (forall (this : Parser.t) (tokens : Tokens.t) (b : Parser.Block),
     Parser.isVariable tokens = false ->
     Tokens.params tokens <> [] ->
     Forall Parser.typed (Tokens.params tokens)
     \/ Forall Parser.untyped (Tokens.params tokens) ->
     exists rows,
       Parser.paramRows this tokens (Tokens.params tokens) (Parser.push "" b)
         = Js.Normal rows
       /\ (exists b', Parser.renderParamTags this tokens b = Js.Normal b'
                      /\ Parser.blockList b'
                         = (Parser.blockList b ++ "" :: (Parser.line <$> rows))%list)
       /\ length rows = length (Tokens.params tokens)
       /\ forall i p r,
            Tokens.params tokens !! i = Some p -> rows !! i = Some r ->
            Parser.tag r = "@param" +:+ Parser.columns this +:+ " "
            /\ Parser.typeField r
               = Parser.placeholderText (Parser.count b + 2 * i)
                   (Parser.escape (Parser.typeText p))
            /\ Parser.nameField r = Parser.escape (Param.name p)
            /\ Parser.desc r
               = Parser.placeholderText (Parser.count b + 2 * i + 1)
                   ("[" +:+ Parser.escape (Param.name p) +:+ " description]")
            /\ (exists n, Parser.tSpace r = Js.spaces n
                          /\ Config.columnSpacing (Parser.config this) <= n
                          /\ String.length (Parser.typeText p) + n
                             = Parser.typeWidth this tokens)
            /\ (exists n, Parser.pSpace r = Js.spaces n
                          /\ Config.columnSpacing (Parser.config this) <= n
                          /\ String.length (Param.name p) + n
                             = Parser.nameWidth this tokens))
  /\ (forall (this : Parser.t) (b : Parser.Block),
        Parser.renderParamTags this
          (Tokens.make "foo" "function"
             [Param.make "$a" None; Param.make "$b" (Some "int")]) b
        = Js.Throw Js.TypeError
        /\ Parser.paramRows this
             (Tokens.make "foo" "function"
                [Param.make "$a" None; Param.make "$b" (Some "int")])
             [Param.make "$a" None; Param.make "$b" (Some "int")]
             (Parser.push "" b)
           = Js.Throw Js.TypeError).
Proof.
  split; [|intros this b; split; reflexivity].
  intros this tokens b Hv Hne Hu.
  destruct (renderParams_uniform this tokens (Tokens.params tokens)
              (Parser.push "" b) Hne) as [Hrows Hloop].
  { intros p Hp Hty. destruct Hu as [Ht|Hn]; [exact Ht|].
    rewrite Forall_forall in Hn. destruct Hty as [ty Hty].
    specialize (Hn _ Hp). unfold Parser.untyped in Hn. congruence. }
  eexists. split; [exact Hrows|]. split; [|split].
  - eexists. split.
    + unfold Parser.renderParamTags. rewrite Hv.
      rewrite bool_decide_eq_false_2.
      * cbn [negb andb]. exact Hloop.
      * destruct (Tokens.params tokens); [congruence|discriminate].
    + cbn. by rewrite <- app_assoc.
  - apply rowsFrom_length.
  - intros i p r Hp Hr. rewrite (rowsFrom_lookup _ _ _ _ _ _ Hp) in Hr.
    injection Hr as <-. cbn [Parser.rowOf Parser.tag Parser.typeField
      Parser.nameField Parser.desc Parser.tSpace Parser.pSpace Parser.push
      Parser.count].
    assert (Hin : p ∈ Tokens.params tokens) by (eapply list_elem_of_lookup_2, Hp).
    repeat split.
    + f_equal. lia.
    + eexists. split; [reflexivity|]. split.
      * unfold Parser.typeBlanks. lia.
      * by apply typeWidth_row.
    + eexists. split; [reflexivity|]. split.
      * unfold Parser.nameBlanks. lia.
      * by apply nameWidth_row.
Qed.

Lemma renderParamTags_columns_witness :
  exists rows,
    Parser.paramRows Parser.default
      (Tokens.make "foo" "function"
         [Param.make "$a" (Some "int"); Param.make "$long" (Some "string")])
      [Param.make "$a" (Some "int"); Param.make "$long" (Some "string")]
      (Parser.push "" {| Parser.blockList := []; Parser.count := 2 |})
    = Js.Normal rows
    /\ length rows = 2.
Proof.
  destruct (proj1 renderParamTags_columns Parser.default
              (Tokens.make "foo" "function"
                 [Param.make "$a" (Some "int");
                  Param.make "$long" (Some "string")])
              {| Parser.blockList := []; Parser.count := 2 |})
    as (rows & Hrows & _ & Hlen & _).
  - reflexivity.
  - discriminate.
  - left. repeat constructor; by eexists.
  - exists rows. split; [exact Hrows|exact Hlen].
Defined.

(** C8: [escape] replaces the first [$] only.  For the name [$$foo] the
    seeded description is "[\$$foo description]", the second [$] left as it
    is, where escaping every occurrence gives "\$\$foo". *)
Theorem escape_first_dollar_only :
  Parser.escape "$$foo" = "\$$foo"
  /\ Js.replaceAllDollar "$$foo" = "\$\$foo"
  /\ forall this, exists b,
       Parser.renderLines this (Tokens.make "$$foo" "variable" []) = Js.Normal b
       /\ Parser.blockList b !! 0 = Some "${1:[\$$foo description]}".
Proof.
  split; [reflexivity|]. split; [reflexivity|].
  intros [[column [] mixed] columns settings]; eexists; split; reflexivity.
Qed.

(** C7: resolving a language identifier returns a parser for each of the
    seven registered identifiers and throws "This language is not
    supported" for every other one; but this is not the only failure a
    caller can see: rendering the record of [function foo($a, int $b)]
    throws a TypeError. *)
Theorem getParserFromLanguageID_cases :
  (forall language,
     (language ∈ Snippets.registered ->
      exists parser, Snippets.getParserFromLanguageID language = Js.Normal parser)
     /\ (language ∉ Snippets.registered ->
         Snippets.getParserFromLanguageID language
         = Js.Throw (Js.Error ("This language is not supported: " +:+ language))))
  /\ (forall this,
        Parser.renderBlock this
          (Tokens.make "foo" "function"
             [Param.make "$a" None; Param.make "$b" (Some "int")])
        = Js.Throw Js.TypeError).
Proof.
  split.
  - intros language. split.
    + unfold Snippets.registered. rewrite !elem_of_cons, elem_of_nil.
      intros H. repeat (destruct H as [->|H]; [eexists; reflexivity|]).
      destruct H.
    + unfold Snippets.registered. rewrite !not_elem_of_cons.
      intros (? & ? & ? & ? & ? & ? & ? & _).
      unfold Snippets.getParserFromLanguageID, Snippets.languageList.
      rewrite !lookup_insert_ne, lookup_empty by congruence. reflexivity.
  - intros this. reflexivity.
Qed.

Lemma getParserFromLanguageID_cases_witness :
  (exists parser, Snippets.getParserFromLanguageID "php" = Js.Normal parser)
  /\ Snippets.getParserFromLanguageID "ruby"
     = Js.Throw (Js.Error "This language is not supported: ruby").
Proof.
  split.
  - apply (proj1 (proj1 getParserFromLanguageID_cases "php")). compute_done.
  - apply (proj2 (proj1 getParserFromLanguageID_cases "ruby")). compute_done.
Defined.

(** C10: rendering the parameter tags is not total.  For a record of kind
    function whose parameters mix one that has a type with one that has
    none, [renderParamTags] throws a TypeError (the widest type is computed
    from the type of every parameter, absent ones included), and so does
    [renderBlock]: no comment string is produced. *)
Theorem renderParamTags_mixed_throws (this : Parser.t) (tokens : Tokens.t)
    (b : Parser.Block) :
  Tokens.type tokens = "function" ->
  (exists p, p ∈ Tokens.params tokens /\ Parser.typed p) ->
  (exists q, q ∈ Tokens.params tokens /\ Parser.untyped q) ->
  Parser.renderParamTags this tokens b = Js.Throw Js.TypeError
  /\ Parser.renderBlock this tokens = Js.Throw Js.TypeError.
Proof.
  intros Hk Hp Hq.
  assert (Htags : forall b', Parser.renderParamTags this tokens b' = Js.Throw Js.TypeError).
  { intros b'. unfold Parser.renderParamTags, Parser.isVariable. rewrite Hk.
    rewrite bool_decide_eq_false_2.
    - cbn. apply renderParams_throw; assumption.
    - destruct Hp as (p & Hp & _).
      destruct (Tokens.params tokens); [inversion Hp|discriminate]. }
  split; [apply Htags|].
  unfold Parser.renderBlock, Parser.renderLines. cbn. by rewrite Htags.
Qed.

Lemma renderParamTags_mixed_throws_witness :
  Parser.renderParamTags Parser.default
    (Tokens.make "foo" "function"
       [Param.make "$a" None; Param.make "$b" (Some "int")])
    {| Parser.blockList := []; Parser.count := 1 |} = Js.Throw Js.TypeError
  /\ Parser.renderBlock Parser.default
       (Tokens.make "foo" "function"
          [Param.make "$a" None; Param.make "$b" (Some "int")])
     = Js.Throw Js.TypeError.
Proof.
  apply (renderParamTags_mixed_throws Parser.default
           (Tokens.make "foo" "function"
              [Param.make "$a" None; Param.make "$b" (Some "int")]) _ eq_refl).
  - exists (Param.make "$b" (Some "int")). split; [compute_done|by eexists].
  - exists (Param.make "$a" None). split; [compute_done|reflexivity].
Defined.

Lemma renderParams_exception (this : Parser.t) (tokens : Tokens.t)
    (l : list Param.t) (b : Parser.Block) (e : Js.exception) :
  Parser.renderParams this tokens l b = Js.Throw e -> e = Js.TypeError.
Proof.
  revert b. induction l as [|p l IH]; intros b; cbn [Parser.renderParams].
  - discriminate.
  - destruct (Parser.renderParam this tokens p b) as [[r b1]|e'] eqn:Hp; cbn.
    + apply IH.
    + intros [= <-]. eapply renderParam_throw, Hp.
Qed.

Lemma renderLines_throw (this : Parser.t) (tokens : Tokens.t) (e : Js.exception) :
  Parser.renderLines this tokens = Js.Throw e ->
  e = Js.TypeError /\ Parser.renderBlock this tokens = Js.Throw e.
Proof.
  intros H. split; [|unfold Parser.renderBlock; by rewrite H].
  revert H. unfold Parser.renderLines, Parser.renderParamTags.
  cbn [Parser.placeholder].
  destruct (_ && _); cbn; [|discriminate].
  destruct (Parser.renderParams _ _ _ _) as [b1|e'] eqn:Hl; cbn; [discriminate|].
  intros [= <-]. eapply renderParams_exception, Hl.
Qed.

(** ** The parse run *)

Section Kind.

Import PHP.

Variable isName : option string -> bool.
Variable matchesIdentifier : option string -> bool.

Lemma parseClass_kind (token : Token.t) (st : State) :
  kind (parseClass isName token st)
  = if Grammar.is_ grammar (Token.value token) "class"
    then Some SymbolKind.Class else kind st.
Proof.
  unfold parseClass. destruct (Grammar.is_ _ _ "class"); [reflexivity|].
  destruct (_ && _); reflexivity.
Qed.

Lemma parseFunction_kind (token : Token.t) (st : State) :
  kind (parseFunction isName matchesIdentifier token st)
  = if Grammar.is_ grammar (Token.value token) "function"
    then Some SymbolKind.Function else kind st.
Proof.
  unfold parseFunction. destruct (Grammar.is_ _ _ "function"); [reflexivity|].
  repeat (match goal with |- context [if ?c then _ else _] => destruct c end);
    reflexivity.
Qed.

Lemma parseParameterName_kind (token : Token.t) (st : State) :
  kind (parseParameterName token st) = kind st.
Proof. unfold parseParameterName. destruct (_ && _); reflexivity. Qed.

Lemma parseParameterType_kind (token : Token.t) (st : State) :
  kind (parseParameterType token st) = kind st.
Proof.
  unfold parseParameterType.
  destruct (_ && _ && expectParameter st); cbn [expectParameterType setExpectParameterType onSymbols];
  repeat (match goal with
          | |- context [if ?c then _ else _] => destruct c
          | |- context [match ?c with Some _ => _ | None => _ end] => destruct c
          end); reflexivity.
Qed.

Lemma parseParameters_kind (token : Token.t) (st : State) :
  kind (parseParameters token st) = kind st.
Proof.
  unfold parseParameters. destruct (isKind _ st); [|reflexivity].
  assert (H : forall (b : bool) s,
             kind (if b then setExpectParameter false s else s) = kind s)
    by (intros [] ?; reflexivity).
  rewrite H, parseParameterType_kind, parseParameterName_kind.
  destruct (labelled "(" token); reflexivity.
Qed.

Lemma parseVariable_kind (token : Token.t) (st : State) :
  kind (parseVariable token st)
  = match kind st with
    | Some k => Some k
    | None =>
        if isVariableName (Token.value token)
           || Grammar.is_ grammar (Token.value token) "variables"
        then Some SymbolKind.Variable_ else None
    end.
Proof.
  unfold parseVariable.
  destruct (kind st) as [k|] eqn:Hk.
  - assert (Hu : unset st = false)
      by (unfold unset; apply bool_decide_eq_false; congruence).
    rewrite Hu. cbn [andb]. rewrite Hu. cbn [andb].
    destruct (_ && _); exact Hk.
  - assert (Hu : unset st = true)
      by (unfold unset; apply bool_decide_eq_true; congruence).
    rewrite Hu. cbn [andb orb].
    destruct (isVariableName (Token.value token)); cbn [orb].
    + cbn [unset kind symbols onSymbols Symbols.setType Symbols.type bool_decide andb].
      repeat match goal with
             | |- context [if ?c then _ else _] => destruct c
             end; reflexivity.
    + rewrite Hu. cbn [andb].
      destruct (Grammar.is_ _ _ "variables"); [reflexivity|].
      assert (Hv : isKind SymbolKind.Variable_ st = false)
        by (unfold isKind, Symbols.is_kind; apply bool_decide_eq_false;
            unfold kind in Hk; congruence).
      rewrite Hv. exact Hk.
Qed.

Lemma attempt_kind (shortCircuit : bool) (handler others : State -> State)
    (st : State) (k : option SymbolKind.t) :
  kind (handler st) = k -> (forall st', kind st' = k -> kind (others st') = k) ->
  kind (attempt shortCircuit handler others st) = k.
Proof.
  intros Hh Ho. unfold attempt. destruct (_ && _); auto.
Qed.

Lemma dispatch_kind (shortCircuit : bool) (token : Token.t) (st : State)
    (k : SymbolKind.t) :
  kind st = Some k -> isKindKeyword token = false ->
  kind (dispatch isName matchesIdentifier shortCircuit token st) = Some k.
Proof.
  unfold isKindKeyword. intros Hk [Hc Hf]%orb_false_iff. unfold dispatch.
  apply attempt_kind; [by rewrite parseClass_kind, Hc|]. intros st1 H1.
  apply attempt_kind; [by rewrite parseFunction_kind, Hf|]. intros st2 H2.
  apply attempt_kind; [by rewrite parseParameters_kind|]. intros st3 H3.
  by rewrite parseVariable_kind, H3.
Qed.

Lemma run_kind (shortCircuit : bool) (tokens : list Token.t) (st : State)
    (k : SymbolKind.t) :
  kind st = Some k -> Forall (fun token => isKindKeyword token = false) tokens ->
  kind (run isName matchesIdentifier shortCircuit tokens st) = Some k.
Proof.
  intros Hk Hall. revert st Hk.
  induction Hall as [|token tokens Ht _ IH]; intros st Hk; cbn [run]; [exact Hk|].
  destruct (done st && negb (expectParameter st)); [exact Hk|].
  apply IH. by apply dispatch_kind.
Qed.

End Kind.

Section Parameters.

Import PHP.

Lemma isType_not_variableName (v : string) :
  isType v = true ->
  isVariableName (Some v) = false /\ Js.truthy (Some v) = true.
Proof.
  destruct v as [|c r]; [discriminate|]. intros Ht. split; [|reflexivity].
  cbn. destruct (Ascii.eqb_spec c "$") as [->|]; [|reflexivity].
  exfalso. unfold isType in Ht.
  apply andb_true_iff in Ht as [_ [Ht|Hc]%orb_true_iff].
  - apply (is_category grammar _ "types" (Grammar.types grammar) eq_refl) in Ht.
    cbn in Ht.
    rewrite !elem_of_cons, elem_of_nil in Ht.
    repeat (destruct Ht as [Ht|Ht]; [discriminate Ht|]). destruct Ht.
  - discriminate Hc.
Qed.

Lemma variableName_not_type (v : string) :
  isVariableName (Some v) = true -> isType v = false.
Proof.
  intros Hv. apply not_true_iff_false. intros Ht.
  apply isType_not_variableName in Ht as [Ht _]. congruence.
Qed.

Lemma parseParameterName_flag (token : Token.t) (st : State) :
  expectParameterType (parseParameterName token st) = expectParameterType st.
Proof. unfold parseParameterName. destruct (_ && _); reflexivity. Qed.

Lemma parseParameterType_flag (token : Token.t) (st : State) :
  expectParameterType st = true ->
  expectParameterType (parseParameterType token st) = true.
Proof.
  intros H. unfold parseParameterType.
  destruct (_ && _ && expectParameter st);
    cbn [expectParameterType setExpectParameterType onSymbols]; rewrite ?H;
    cbn [andb];
    repeat (match goal with
            | |- context [if ?c then _ else _] => destruct c
            | |- context [match ?c with Some _ => _ | None => _ end] => destruct c
            end); cbn; auto.
Qed.

Lemma parseParameters_flag (token : Token.t) (st : State) :
  expectParameterType st = true ->
  expectParameterType (parseParameters token st) = true.
Proof.
  intros H. unfold parseParameters. destruct (isKind _ st); [|exact H].
  assert (Hc : forall (b : bool) s,
             expectParameterType (if b then setExpectParameter false s else s)
             = expectParameterType s) by (intros [] ?; reflexivity).
  rewrite Hc. apply parseParameterType_flag. rewrite parseParameterName_flag.
  destruct (labelled "(" token); exact H.
Qed.

End Parameters.

(** C1: inside an open parameter list a type token appends a Parameter with
    that type and the empty name and sets [expectParameterType], and the next
    variable-name token becomes the name of the last Parameter; but no token
    clears [expectParameterType] again, so on [int $a, $b] the untyped [$b]
    renames the Parameter of [$a] instead of starting a new one. *)
Theorem parameter_type_flag_never_cleared :
  (forall token st v,
     PHP.isKind SymbolKind.Function st = true -> PHP.expectParameter st = true ->
     Token.value token = Some v -> PHP.isType v = true ->
     Symbols.params (PHP.symbols (PHP.parseParameters token st))
     = (Symbols.params (PHP.symbols st) ++ [Param.make "" (Some v)])%list
     /\ PHP.expectParameterType (PHP.parseParameters token st) = true)
  /\ (forall token st v params lastParam,
        PHP.isKind SymbolKind.Function st = true ->
        PHP.expectParameter st = true -> PHP.expectParameterType st = true ->
        Token.value token = Some v -> PHP.isVariableName (Some v) = true ->
        Symbols.params (PHP.symbols st) = (params ++ [lastParam])%list ->
        Symbols.params (PHP.symbols (PHP.parseParameters token st))
        = (params ++ [Param.setName v lastParam])%list)
  /\ (forall token st,
        PHP.expectParameterType st = true ->
        PHP.expectParameterType (PHP.parseParameters token st) = true)
  /\ Symbols.params
       (PHP.symbols
          (foldl (fun st token => PHP.parseParameters token st) PHP.inParameters
             [Token.name "int"; Token.name "$a"; Token.punct ",";
              Token.name "$b"]))
     = [Param.make "$b" (Some "int")].
Proof.
  split; [|split; [|split; [apply parseParameters_flag|reflexivity]]].
  - intros token st v Hk He Hv Ht.
    destruct (isType_not_variableName v Ht) as [Hn Htr].
    unfold PHP.parseParameters. rewrite Hk.
    set (st1 := if PHP.labelled "(" token then _ else st).
    assert (He1 : PHP.expectParameter st1 = true)
      by (subst st1; destruct (PHP.labelled "(" token); [reflexivity|exact He]).
    assert (Hs1 : PHP.symbols st1 = PHP.symbols st)
      by (subst st1; destruct (PHP.labelled "(" token); reflexivity).
    unfold PHP.parseParameterName. rewrite Hv, Hn, andb_false_r. cbn [andb].
    unfold PHP.parseParameterType. rewrite truthy_isType. rewrite Hv, Htr, He1. cbn [Js.toString andb].
    rewrite Ht. cbn [PHP.expectParameterType PHP.setExpectParameterType PHP.onSymbols andb].
    rewrite Hn. rewrite <- Hs1.
    destruct (PHP.labelled ")" token); split; reflexivity.
  - intros token st v params lastParam Hk He Hty Hv Hn Hps.
    pose proof (variableName_not_type v Hn) as Ht.
    unfold PHP.parseParameters. rewrite Hk.
    set (st1 := if PHP.labelled "(" token then _ else st).
    assert (He1 : PHP.expectParameter st1 = true)
      by (subst st1; destruct (PHP.labelled "(" token); [reflexivity|exact He]).
    assert (Hty1 : PHP.expectParameterType st1 = true)
      by (subst st1; destruct (PHP.labelled "(" token); [exact Hty|exact Hty]).
    assert (Hs1 : PHP.symbols st1 = PHP.symbols st)
      by (subst st1; destruct (PHP.labelled "(" token); reflexivity).
    unfold PHP.parseParameterName. rewrite Hty1, andb_false_r.
    unfold PHP.parseParameterType. rewrite truthy_isType. rewrite Hv. cbn [Js.toString].
    rewrite Ht, andb_false_r. cbn [andb]. rewrite Hty1, Hn. cbn [andb].
    unfold Symbols.getParameter, Symbols.getLastParameterIndex.
    rewrite Hs1, Hps, length_app. cbn [length].
    replace (length params + 1 - 1) with (length params + 0) by lia.
    rewrite lookup_app_r, Nat.add_0_r, Nat.sub_diag by lia. cbn [lookup list_lookup].
    assert (Hfin : Symbols.params (PHP.symbols (PHP.onSymbols
              (fun s => Symbols.setParams
                 (<[length params := Param.setName v lastParam]> (Symbols.params s)) s)
              st1)) = (params ++ [Param.setName v lastParam])%list).
    { cbn. rewrite Hs1, Hps.
      rewrite insert_app_r_alt, Nat.sub_diag by lia. reflexivity. }
    destruct (PHP.labelled ")" token); exact Hfin.
Qed.

Lemma parameter_type_flag_never_cleared_witness :
  (Symbols.params
     (PHP.symbols (PHP.parseParameters (Token.name "int") PHP.inParameters))
   = [Param.make "" (Some "int")]
   /\ PHP.expectParameterType
        (PHP.parseParameters (Token.name "int") PHP.inParameters) = true)
  /\ PHP.expectParameterType
       (PHP.parseParameters (Token.name "$a")
          (PHP.parseParameters (Token.name "int") PHP.inParameters)) = true.
Proof.
  destruct parameter_type_flag_never_cleared as (Htype & _ & Hflag & _).
  split.
  - apply (Htype (Token.name "int") PHP.inParameters "int"); reflexivity.
  - apply Hflag. reflexivity.
Defined.

Section Declarations.

Import PHP.

Variable isName : option string -> bool.
Variable matchesIdentifier : option string -> bool.

Lemma is_false (s c : string) (l : list string) :
  Grammar.category grammar c = Some l -> s ∉ l ->
  Grammar.is_ grammar (Some s) c = false.
Proof.
  intros Hc Hs. apply not_true_iff_false. by rewrite (is_category _ _ _ _ Hc).
Qed.

Lemma variableName_not_keyword (v c : string) :
  isVariableName (Some v) = true -> Grammar.is_ grammar (Some v) c = false.
Proof.
  intros Hv. unfold Grammar.is_.
  destruct (Grammar.category grammar c) as [l|] eqn:Hc; [|reflexivity].
  apply bool_decide_eq_false. intros Hin.
  unfold Grammar.category in Hc.
  repeat (case_decide; [injection Hc as <-;
    cbn in Hin; rewrite ?elem_of_cons, elem_of_nil in Hin;
    repeat (destruct Hin as [->|Hin]; [discriminate Hv|]); destruct Hin |]).
  discriminate.
Qed.

Lemma modifier_idle (m : string) :
  m ∈ Grammar.modifiers grammar ->
  Grammar.is_ grammar (Some m) "class" = false
  /\ Grammar.is_ grammar (Some m) "function" = false
  /\ Grammar.is_ grammar (Some m) "variables" = false
  /\ isVariableName (Some m) = false.
Proof.
  cbn [Grammar.modifiers grammar]. rewrite !elem_of_cons, elem_of_nil.
  intros H. repeat (destruct H as [->|H]; [repeat split; reflexivity|]).
  destruct H.
Qed.

Lemma attempt_idle (shortCircuit : bool) (handler others : State -> State)
    (st : State) :
  handler st = st -> attempt shortCircuit handler others st = others st.
Proof.
  intros H. unfold attempt. rewrite H.
  rewrite (bool_decide_eq_false_2 (st <> st)) by auto.
  by rewrite andb_false_r.
Qed.

Lemma parseClass_idle (token : Token.t) (st : State) :
  Grammar.is_ grammar (Token.value token) "class" = false ->
  expectName st = false -> parseClass isName token st = st.
Proof. intros Hc He. unfold parseClass. by rewrite Hc, He. Qed.

Lemma parseFunction_idle (token : Token.t) (st : State) :
  Grammar.is_ grammar (Token.value token) "function" = false ->
  isKind SymbolKind.Function st = false ->
  parseFunction isName matchesIdentifier token st = st.
Proof. intros Hf Hk. unfold parseFunction. by rewrite Hf, Hk. Qed.

Lemma parseParameters_idle (token : Token.t) (st : State) :
  isKind SymbolKind.Function st = false -> parseParameters token st = st.
Proof. intros Hk. unfold parseParameters. by rewrite Hk. Qed.

Lemma parseVariable_idle (token : Token.t) (st : State) :
  isVariableName (Token.value token) = false ->
  Grammar.is_ grammar (Token.value token) "variables" = false ->
  expectName st = false -> parseVariable token st = st.
Proof.
  intros Hv Hg He. unfold parseVariable.
  rewrite Hv, andb_false_r. cbn iota. rewrite Hg, andb_false_r, He.
  by rewrite andb_false_r.
Qed.

Lemma dispatch_idle (shortCircuit : bool) (token : Token.t) (st : State) :
  Grammar.is_ grammar (Token.value token) "class" = false ->
  Grammar.is_ grammar (Token.value token) "function" = false ->
  Grammar.is_ grammar (Token.value token) "variables" = false ->
  isVariableName (Token.value token) = false ->
  isKind SymbolKind.Function st = false -> expectName st = false ->
  dispatch isName matchesIdentifier shortCircuit token st = st.
Proof.
  intros Hc Hf Hg Hv Hk He. unfold dispatch.
  rewrite attempt_idle by by apply parseClass_idle.
  rewrite attempt_idle by by apply parseFunction_idle.
  rewrite attempt_idle by by apply parseParameters_idle.
  by apply parseVariable_idle.
Qed.

Lemma run_modifiers (shortCircuit : bool) (mods : list string)
    (rest : list Token.t) :
  Forall (fun m => m ∈ Grammar.modifiers grammar) mods ->
  run isName matchesIdentifier shortCircuit ((Token.name <$> mods) ++ rest) start
  = run isName matchesIdentifier shortCircuit rest start.
Proof.
  induction 1 as [|m mods Hm _ IH]; [reflexivity|].
  cbn [fmap list_fmap app run]. cbn [done start andb].
  destruct (modifier_idle m Hm) as (Hc & Hf & Hg & Hv).
  rewrite dispatch_idle by (assumption || reflexivity). exact IH.
Qed.

(** The state after the variable-name token of a declaration. *)
Lemma dispatch_variable (shortCircuit : bool) (v : string) :
  isVariableName (Some v) = true ->
  dispatch isName matchesIdentifier shortCircuit (Token.name v) start
  = onSymbols (fun s => Symbols.setType SymbolKind.Variable_
                          (Symbols.setName (Some v) s)) start.
Proof.
  intros Hv. unfold dispatch.
  rewrite attempt_idle
    by (apply parseClass_idle; [by apply variableName_not_keyword|reflexivity]).
  rewrite attempt_idle
    by (apply parseFunction_idle; [by apply variableName_not_keyword|reflexivity]).
  rewrite attempt_idle by by apply parseParameters_idle.
  unfold parseVariable. cbn [Token.value Token.name]. rewrite Hv.
  reflexivity.
Qed.

Lemma run_declaration (shortCircuit : bool) (mods : list string) (v : string) :
  Forall (fun m => m ∈ Grammar.modifiers grammar) mods ->
  isVariableName (Some v) = true ->
  run isName matchesIdentifier shortCircuit
      ((Token.name <$> mods) ++ [Token.name v; Token.punct ";"]) start
  = onSymbols (fun s => Symbols.setType SymbolKind.Variable_
                          (Symbols.setName (Some v) s)) start.
Proof.
  intros Hm Hv. rewrite run_modifiers by exact Hm.
  cbn [run done start andb]. rewrite dispatch_variable by exact Hv.
  cbn [done onSymbols start andb]. by rewrite dispatch_idle.
Qed.

End Declarations.

Section Present.

Import PHP.

Variable isName : option string -> bool.
Variable matchesIdentifier : option string -> bool.

Ltac by_cases :=
  repeat match goal with
         | |- context [if ?c then _ else _] => destruct c
         | |- context [match ?c with Some _ => _ | None => _ end] => destruct c
         end; reflexivity.

Lemma parseClass_present (token : Token.t) (st : State) :
  returnPresent (parseClass isName token st) = returnPresent st.
Proof. unfold returnPresent, parseClass. by_cases. Qed.

Lemma parseFunction_present (token : Token.t) (st : State) :
  returnPresent (parseFunction isName matchesIdentifier token st) = returnPresent st.
Proof. unfold returnPresent, parseFunction. by_cases. Qed.

Lemma parseParameters_present (token : Token.t) (st : State) :
  returnPresent (parseParameters token st) = returnPresent st.
Proof.
  unfold returnPresent, parseParameters, parseParameterType, parseParameterName.
  destruct (isKind _ st); [|reflexivity].
  destruct (labelled "(" token), (labelled ")" token);
    cbn [expectParameter expectParameterType setExpectParameter];
    by_cases.
Qed.

Lemma parseVariable_present (token : Token.t) (st : State) :
  returnPresent (parseVariable token st) = returnPresent st.
Proof. unfold returnPresent, parseVariable. by_cases. Qed.

Lemma dispatch_present (shortCircuit : bool) (token : Token.t) (st : State) :
  returnPresent (dispatch isName matchesIdentifier shortCircuit token st) = returnPresent st.
Proof.
  unfold dispatch, attempt.
  repeat match goal with
         | |- context [if ?c then _ else _] => destruct c
         end;
    rewrite ?parseVariable_present, ?parseParameters_present,
      ?parseFunction_present, ?parseClass_present; reflexivity.
Qed.

(** No handler writes [return.present]: through a run it keeps the value the
    fresh record has. *)
Lemma run_present (shortCircuit : bool) (tokens : list Token.t) (st : State) :
  returnPresent (run isName matchesIdentifier shortCircuit tokens st) = returnPresent st.
Proof.
  revert st. induction tokens as [|token tokens IH]; intros st; cbn [run];
    [reflexivity|].
  destruct (done st && negb (expectParameter st)); [reflexivity|].
  by rewrite IH, dispatch_present.
Qed.

End Present.

(** C3: the record a parse run returns has return information present when
    its kind is Class or Function and absent when its kind is Variable; and
    a bare variable declaration without initializer (modifiers, a variable
    name, a semicolon) yields kind Variable, no parameters and no return
    information.  The handlers never write the field: it is the default
    applied to the finished record that tells the kinds apart. *)
Theorem returnPresent_by_kind (isName matchesIdentifier : option string -> bool)
    (config : Config.t) (shortCircuit : bool) :
  (forall tokens,
     match Symbols.type
             (PHP.tokenize isName matchesIdentifier config shortCircuit tokens) with
     | Some SymbolKind.Class | Some SymbolKind.Function =>
         Return.present
           (Symbols.return_
              (PHP.tokenize isName matchesIdentifier config shortCircuit tokens))
         = true
     | Some SymbolKind.Variable_ =>
         Return.present
           (Symbols.return_
              (PHP.tokenize isName matchesIdentifier config shortCircuit tokens))
         = false
     | None => True
     end)
  /\ (forall mods v,
        Forall (fun m => m ∈ Grammar.modifiers PHP.grammar) mods ->
        PHP.isVariableName (Some v) = true ->
        PHP.tokenize isName matchesIdentifier config shortCircuit
          ((Token.name <$> mods) ++ [Token.name v; Token.punct ";"])
        = {| Symbols.name := Some v; Symbols.params := [];
             Symbols.return_ := {| Return.present := false; Return.type := None |};
             Symbols.type := Some SymbolKind.Variable_ |})
  /\ (forall tokens,
        PHP.returnPresent
          (PHP.run isName matchesIdentifier shortCircuit tokens PHP.start)
        = true).
Proof.
  split; [|split].
  - intros tokens. unfold PHP.tokenize.
    destruct (PHP.symbols _) as [n ps r [[]|]]; cbn; done.
  - intros mods v Hm Hv. unfold PHP.tokenize.
    by rewrite run_declaration.
  - intros tokens. by rewrite run_present.
Qed.

Lemma returnPresent_by_kind_witness :
  PHP.tokenize PHP.isName PHP.matchesIdentifier (Parser.config Parser.default)
    true [Token.name "public"; Token.name "$foo"; Token.punct ";"]
  = {| Symbols.name := Some "$foo"; Symbols.params := [];
       Symbols.return_ := {| Return.present := false; Return.type := None |};
       Symbols.type := Some SymbolKind.Variable_ |}.
Proof.
  apply (proj1 (proj2 (returnPresent_by_kind PHP.isName PHP.matchesIdentifier
                         (Parser.config Parser.default) true))
           ["public"] "$foo").
  - apply Forall_singleton. compute_done.
  - reflexivity.
Defined.

(** C9, as the code has it: the variable handler assigns a kind only while
    none is set, so it keeps a kind already assigned; the class and the
    function handler assign Class and Function on every class or function
    keyword, whatever the kind was; hence in a parse run a kind once
    assigned is kept by every token that is no class or function keyword. *)
Theorem kind_kept_unless_keyword
    (isName matchesIdentifier : option string -> bool) :
  (forall shortCircuit tokens st k,
     PHP.kind st = Some k ->
     Forall (fun token => PHP.isKindKeyword token = false) tokens ->
     PHP.kind (PHP.run isName matchesIdentifier shortCircuit tokens st) = Some k)
  /\ (forall token st k,
        PHP.kind st = Some k -> PHP.kind (PHP.parseVariable token st) = Some k)
  /\ (forall token st,
        Grammar.is_ PHP.grammar (Token.value token) "class" = true ->
        PHP.kind (PHP.parseClass isName token st) = Some SymbolKind.Class)
  /\ (forall token st,
        Grammar.is_ PHP.grammar (Token.value token) "function" = true ->
        PHP.kind (PHP.parseFunction isName matchesIdentifier token st)
        = Some SymbolKind.Function).
Proof.
  split; [|split; [|split]].
  - intros sc tokens st k. apply run_kind.
  - intros token st k Hk. by rewrite parseVariable_kind, Hk.
  - intros token st Hc. by rewrite parseClass_kind, Hc.
  - intros token st Hf. by rewrite parseFunction_kind, Hf.
Qed.

Lemma kind_kept_unless_keyword_witness :
  PHP.kind (PHP.run PHP.isName PHP.matchesIdentifier true
              [Token.operator "="; Token.name "5"; Token.punct ";"]
              (PHP.parseVariable (Token.name "$foo") PHP.start))
  = Some SymbolKind.Variable_
  /\ PHP.kind (PHP.parseVariable (Token.name "$bar")
                 (PHP.parseVariable (Token.name "$foo") PHP.start))
     = Some SymbolKind.Variable_
  /\ PHP.kind (PHP.parseClass PHP.isName (Token.keyword "class") PHP.start)
     = Some SymbolKind.Class
  /\ PHP.kind (PHP.parseFunction PHP.isName PHP.matchesIdentifier
                 (Token.keyword "function") PHP.start)
     = Some SymbolKind.Function.
Proof.
  destruct (kind_kept_unless_keyword PHP.isName PHP.matchesIdentifier)
    as (Hrun & Hvar & Hclass & Hfun).
  split; [|split; [|split]].
  - apply Hrun; [reflexivity|]. repeat constructor.
  - apply Hvar. reflexivity.
  - apply Hclass. reflexivity.
  - apply Hfun. reflexivity.
Defined.

(** C9, as stated, fails: on [$foo = function] the variable handler assigns
    Variable at the first token and the function handler changes it to
    Function at the third, whether or not a token stops at the first rule
    that fires. *)
Lemma kind_reassigned_counterexample :
  (PHP.kind (PHP.parseVariable (Token.name "$foo") PHP.start)
   = Some SymbolKind.Variable_
   /\ PHP.kind (PHP.parseFunction PHP.isName PHP.matchesIdentifier
                  (Token.keyword "function")
                  (PHP.parseVariable (Token.name "$foo") PHP.start))
      = Some SymbolKind.Function)
  /\ (PHP.kind (PHP.run PHP.isName PHP.matchesIdentifier true
               [Token.name "$foo"] PHP.start) = Some SymbolKind.Variable_
   /\ PHP.kind (PHP.run PHP.isName PHP.matchesIdentifier true
                  [Token.name "$foo"; Token.operator "=";
                   Token.keyword "function"] PHP.start)
      = Some SymbolKind.Function)
  /\ (PHP.kind (PHP.run PHP.isName PHP.matchesIdentifier false
                  [Token.name "$foo"] PHP.start) = Some SymbolKind.Variable_
      /\ PHP.kind (PHP.run PHP.isName PHP.matchesIdentifier false
                     [Token.name "$foo"; Token.operator "=";
                      Token.keyword "function"] PHP.start)
         = Some SymbolKind.Function).
Proof. repeat split; reflexivity. Qed.

(** * Further properties of the code *)

(** ** The parameter handlers, token by token *)

Section ParameterSteps.

Import PHP ParameterList.

Lemma variableName_value (token : Token.t) :
  isVariableName (Token.value token) = true ->
  exists v, Token.value token = Some v /\ isType v = false.
Proof.
  destruct (Token.value token) as [v|] eqn:Hv; [|discriminate].
  intros H. exists v. split; [reflexivity|]. by apply variableName_not_type.
Qed.

Lemma typeShaped_not_variableName (token : Token.t) :
  typeShaped token = true -> isVariableName (Token.value token) = false.
Proof.
  unfold typeShaped. intros [Ht Hty]%andb_true_iff.
  destruct (Token.value token) as [v|]; [|reflexivity].
  by apply isType_not_variableName.
Qed.

(** What one call does to the parameter list. *)
Lemma parseParameters_params (token : Token.t) (st : State) :
  isKind SymbolKind.Function st = true ->
  Symbols.params (symbols (parseParameters token st))
  = if isVariableName (Token.value token) then
      if opened token st && negb (expectParameterType st) then
        (Symbols.params (symbols st)
         ++ [Param.make (Js.toString (Token.value token)) None])%list
      else if expectParameterType st then
        renameLast (Js.toString (Token.value token)) (Symbols.params (symbols st))
      else Symbols.params (symbols st)
    else if typeShaped token && opened token st then
      (Symbols.params (symbols st)
       ++ [Param.make "" (Some (Js.toString (Token.value token)))])%list
    else Symbols.params (symbols st).
Proof.
  intros Hk. unfold parseParameters. rewrite Hk.
  set (st1 := if labelled "(" token then _ else st).
  assert (He1 : expectParameter st1 = opened token st)
    by (subst st1; unfold opened; destruct (labelled "(" token); reflexivity).
  assert (Ht1 : expectParameterType st1 = expectParameterType st)
    by (subst st1; destruct (labelled "(" token); reflexivity).
  assert (Hs1 : symbols st1 = symbols st)
    by (subst st1; destruct (labelled "(" token); reflexivity).
  assert (Hclose : forall (b : bool) s,
            Symbols.params (symbols (if b then setExpectParameter false s else s))
            = Symbols.params (symbols s)) by (intros [] ?; reflexivity).
  rewrite Hclose. clear Hclose. unfold typeShaped.
  destruct (isVariableName (Token.value token)) eqn:Hv.
  - destruct (variableName_value token Hv) as (v & Hval & Hty).
    assert (Htype : forall s,
              expectParameterType s = false ->
              parseParameterType token s = s).
    { intros s Hs. unfold parseParameterType. rewrite truthy_isType.
      rewrite Hval. cbn [Js.toString]. rewrite Hty, andb_false_r. cbn [andb].
      by rewrite Hs. }
    unfold parseParameterName. rewrite Hv, He1, Ht1, andb_true_r.
    destruct (opened token st && negb (expectParameterType st)) eqn:Hc.
    + apply andb_true_iff in Hc as [_ Hept%negb_true_iff].
      rewrite Htype by (cbn; congruence). cbn. by rewrite Hs1, Hval.
    + unfold parseParameterType. rewrite truthy_isType. rewrite Hval in Hv |- *.
      cbn [Js.toString]. rewrite Hty, andb_false_r. cbn [andb].
      rewrite Ht1, Hv, andb_true_r.
      destruct (expectParameterType st); [|by rewrite Hs1].
      unfold Symbols.getParameter, Symbols.getLastParameterIndex, renameLast.
      rewrite Hs1. destruct (_ !! _); cbn; by rewrite ?Hs1.
  - assert (Hname : parseParameterName token st1 = st1).
    { unfold parseParameterName. by rewrite Hv, andb_false_r. }
    rewrite Hname. unfold parseParameterType. rewrite truthy_isType. rewrite He1.
    destruct (Js.truthy (Token.value token)
              && isType (Js.toString (Token.value token))
              && opened token st) eqn:Hc.
    + cbn [expectParameterType setExpectParameterType onSymbols andb].
      rewrite Hv. cbn. by rewrite Hs1.
    + rewrite Hv, andb_false_r. by rewrite Hs1.
Qed.

Lemma parseParameterName_expectParameter (token : Token.t) (st : State) :
  expectParameter (parseParameterName token st) = expectParameter st.
Proof. unfold parseParameterName. destruct (_ && _); reflexivity. Qed.

Lemma parseParameterType_expectParameterType (token : Token.t) (st : State) :
  expectParameterType (parseParameterType token st)
  = expectParameterType st || (typeShaped token && expectParameter st).
Proof.
  unfold parseParameterType, typeShaped. rewrite !truthy_isType.
  destruct (Js.truthy (Token.value token)
            && isType (Js.toString (Token.value token))
            && expectParameter st) eqn:Hc.
  - rewrite orb_true_r.
    cbn [expectParameterType setExpectParameterType onSymbols andb].
    destruct (isVariableName (Token.value token)); [|reflexivity].
    destruct (Symbols.getParameter _ _); reflexivity.
  - rewrite orb_false_r.
    destruct (expectParameterType st && isVariableName (Token.value token));
      [|reflexivity].
    destruct (Symbols.getParameter _ _); reflexivity.
Qed.

Lemma parseParameters_expectParameterType (token : Token.t) (st : State) :
  isKind SymbolKind.Function st = true ->
  expectParameterType (parseParameters token st)
  = expectParameterType st || (typeShaped token && opened token st).
Proof.
  intros Hk. unfold parseParameters. rewrite Hk.
  set (st1 := if labelled "(" token then _ else st).
  assert (He1 : expectParameter st1 = opened token st)
    by (subst st1; unfold opened; destruct (labelled "(" token); reflexivity).
  assert (Ht1 : expectParameterType st1 = expectParameterType st)
    by (subst st1; destruct (labelled "(" token); reflexivity).
  assert (Hclose : forall (b : bool) s,
            expectParameterType (if b then setExpectParameter false s else s)
            = expectParameterType s) by (intros [] ?; reflexivity).
  rewrite Hclose, parseParameterType_expectParameterType.
  by rewrite parseParameterName_flag, parseParameterName_expectParameter, He1, Ht1.
Qed.

Lemma parseParameters_expectParameter (token : Token.t) (st : State) :
  isKind SymbolKind.Function st = true ->
  expectParameter (parseParameters token st)
  = opened token st && negb (labelled ")" token).
Proof.
  intros Hk. unfold parseParameters. rewrite Hk.
  set (st1 := if labelled "(" token then _ else st).
  assert (He1 : expectParameter st1 = opened token st)
    by (subst st1; unfold opened; destruct (labelled "(" token); reflexivity).
  assert (Hu : expectParameter (parseParameterType token (parseParameterName token st1))
               = expectParameter st1).
  { unfold parseParameterName, parseParameterType.
    repeat match goal with
           | |- context [if ?c then _ else _] => destruct c
           | |- context [match ?c with Some _ => _ | None => _ end] => destruct c
           end; reflexivity. }
  destruct (labelled ")" token); cbn; [by rewrite andb_false_r|].
  by rewrite Hu, He1, andb_true_r.
Qed.

Lemma parseParameters_isKind (token : Token.t) (st : State) (k : SymbolKind.t) :
  isKind k (parseParameters token st) = isKind k st.
Proof.
  unfold isKind, Symbols.is_kind.
  pose proof (parseParameters_kind token st) as H. unfold kind in H.
  by rewrite H.
Qed.

End ParameterSteps.

Lemma renameLast_snoc (n : string) (params : list Param.t) (p : Param.t) :
  ParameterList.renameLast n (params ++ [p]) = (params ++ [Param.setName n p])%list.
Proof.
  unfold ParameterList.renameLast. rewrite length_app. cbn [length].
  replace (length params + 1 - 1) with (length params) by lia.
  rewrite lookup_app_r, Nat.sub_diag by lia. cbn.
  rewrite insert_app_r_alt, Nat.sub_diag by lia. reflexivity.
Qed.

Lemma renameLast_length (n : string) (params : list Param.t) :
  length (ParameterList.renameLast n params) = length params.
Proof.
  unfold ParameterList.renameLast. destruct (_ !! _); [|reflexivity].
  apply length_insert.
Qed.

Lemma renameLast_lookup_init (n : string) (params : list Param.t) (i : nat) :
  S i < length params ->
  ParameterList.renameLast n params !! i = params !! i.
Proof.
  intros Hi. unfold ParameterList.renameLast.
  destruct (params !! (length params - 1)); [|reflexivity].
  apply list_lookup_insert_ne. lia.
Qed.

Lemma renameLast_lookup_last (n : string) (params : list Param.t) (p : Param.t) :
  params !! (length params - 1) = Some p ->
  ParameterList.renameLast n params !! (length params - 1)
  = Some (Param.setName n p).
Proof.
  intros Hl. unfold ParameterList.renameLast. rewrite Hl.
  apply list_lookup_insert_eq. eapply lookup_lt_Some, Hl.
Qed.

(** Inside an open parameter list, with no type pending, every
    variable-name token appends one untyped Parameter and the tokens between
    them (commas, default values that are not type-shaped) append nothing:
    the Parameters come out in the order of the source, and the list stays
    open. *)
Theorem untyped_parameters_in_order (st : PHP.State) (tokens : list Token.t) :
  PHP.isKind SymbolKind.Function st = true ->
  PHP.expectParameter st = true -> PHP.expectParameterType st = false ->
  Forall (fun token => ParameterList.typeShaped token = false
                       /\ PHP.labelled ")" token = false) tokens ->
  Symbols.params (PHP.symbols (ParameterList.parseAll tokens st))
  = (Symbols.params (PHP.symbols st)
     ++ omap ParameterList.untypedParam tokens)%list
  /\ PHP.expectParameter (ParameterList.parseAll tokens st) = true
  /\ PHP.expectParameterType (ParameterList.parseAll tokens st) = false.
Proof.
  intros Hk He Ht Hall. revert st Hk He Ht.
  induction Hall as [|token tokens [Hty Hcl] _ IH]; intros st Hk He Ht.
  - cbn. by rewrite app_nil_r.
  - unfold ParameterList.parseAll. cbn [foldl].
    fold (ParameterList.parseAll tokens (PHP.parseParameters token st)).
    assert (Ho : ParameterList.opened token st = true)
      by (unfold ParameterList.opened; by rewrite He, orb_true_r).
    destruct (IH (PHP.parseParameters token st)) as (Hp & He' & Ht').
    + by rewrite parseParameters_isKind.
    + by rewrite parseParameters_expectParameter, Ho, Hcl.
    + by rewrite parseParameters_expectParameterType, Ht, Hty.
    + split; [|by split]. rewrite Hp, parseParameters_params by exact Hk.
      rewrite Ho, Ht, Hty. cbn [andb negb omap list_omap].
      unfold ParameterList.untypedParam at 2.
      destruct (PHP.isVariableName (Token.value token)); [|reflexivity].
      by rewrite <- app_assoc.
Qed.

Lemma parseAll_app (tokens1 tokens2 : list Token.t) (st : PHP.State) :
  ParameterList.parseAll (tokens1 ++ tokens2) st
  = ParameterList.parseAll tokens2 (ParameterList.parseAll tokens1 st).
Proof. apply foldl_app. Qed.

Lemma parseAll_isKind (tokens : list Token.t) (st : PHP.State)
    (k : SymbolKind.t) :
  PHP.isKind k (ParameterList.parseAll tokens st) = PHP.isKind k st.
Proof.
  revert st. induction tokens as [|token tokens IH]; intros st; [reflexivity|].
  unfold ParameterList.parseAll. cbn [foldl].
  fold (ParameterList.parseAll tokens (PHP.parseParameters token st)).
  by rewrite IH, parseParameters_isKind.
Qed.

(** One [type $name,] group. *)
Lemma typed_parameter_group (st : PHP.State) (p : string * string) :
  PHP.isKind SymbolKind.Function st = true -> PHP.expectParameter st = true ->
  PHP.isType p.1 = true -> PHP.isVariableName (Some p.2) = true ->
  Symbols.params
    (PHP.symbols (ParameterList.parseAll (ParameterList.typedTokens p) st))
  = (Symbols.params (PHP.symbols st) ++ [ParameterList.typedParam p])%list
  /\ PHP.expectParameter (ParameterList.parseAll (ParameterList.typedTokens p) st)
     = true
  /\ PHP.expectParameterType
       (ParameterList.parseAll (ParameterList.typedTokens p) st) = true.
Proof.
  destruct p as [ty n]. cbn [fst snd]. intros Hk He Hty Hn.
  destruct (isType_not_variableName ty Hty) as [Hnv Htr].
  unfold ParameterList.parseAll, ParameterList.typedTokens. cbn [foldl fst snd].
  set (st1 := PHP.parseParameters (Token.name ty) st).
  set (st2 := PHP.parseParameters (Token.name n) st1).
  assert (Hshape : ParameterList.typeShaped (Token.name ty) = true)
    by (unfold ParameterList.typeShaped; rewrite truthy_isType;
        cbn [Token.name Token.value Js.toString]; by rewrite Htr, Hty).
  assert (Ho : ParameterList.opened (Token.name ty) st = true)
    by (unfold ParameterList.opened; by rewrite He, orb_true_r).
  assert (Hp1 : Symbols.params (PHP.symbols st1)
                = (Symbols.params (PHP.symbols st)
                   ++ [Param.make "" (Some ty)])%list).
  { subst st1. rewrite parseParameters_params by exact Hk.
    cbn [Token.value Token.name Js.toString]. by rewrite Hnv, Hshape, Ho. }
  assert (Hk1 : PHP.isKind SymbolKind.Function st1 = true)
    by (subst st1; by rewrite parseParameters_isKind).
  assert (He1 : PHP.expectParameter st1 = true)
    by (subst st1; by rewrite parseParameters_expectParameter, Ho).
  assert (Ht1 : PHP.expectParameterType st1 = true)
    by (subst st1; by rewrite parseParameters_expectParameterType, Hshape, Ho,
          orb_true_r).
  assert (Ho1 : ParameterList.opened (Token.name n) st1 = true)
    by (unfold ParameterList.opened; by rewrite He1, orb_true_r).
  assert (Hp2 : Symbols.params (PHP.symbols st2)
                = (Symbols.params (PHP.symbols st)
                   ++ [Param.make n (Some ty)])%list).
  { subst st2. rewrite parseParameters_params by exact Hk1.
    cbn [Token.value Token.name Js.toString].
    by rewrite Hn, Ho1, Ht1, Hp1, renameLast_snoc. }
  assert (Hk2 : PHP.isKind SymbolKind.Function st2 = true)
    by (subst st2; by rewrite parseParameters_isKind).
  assert (He2 : PHP.expectParameter st2 = true)
    by (subst st2; by rewrite parseParameters_expectParameter, Ho1).
  assert (Ht2 : PHP.expectParameterType st2 = true)
    by (subst st2; by rewrite parseParameters_expectParameterType, Ht1).
  split; [|split].
  - rewrite parseParameters_params by exact Hk2. exact Hp2.
  - rewrite parseParameters_expectParameter by exact Hk2.
    unfold ParameterList.opened. by rewrite He2.
  - rewrite parseParameters_expectParameterType by exact Hk2. by rewrite Ht2.
Qed.

(** A parameter list in which every parameter is written [type $name,]
    yields one Parameter per pair, with that type and that name, in the
    order of the source; whether a type was pending before does not
    matter. *)
Theorem typed_parameters_in_order (st : PHP.State)
    (pairs : list (string * string)) :
  PHP.isKind SymbolKind.Function st = true -> PHP.expectParameter st = true ->
  Forall (fun p => PHP.isType p.1 = true
                   /\ PHP.isVariableName (Some p.2) = true) pairs ->
  Symbols.params
    (PHP.symbols
       (ParameterList.parseAll (pairs ≫= ParameterList.typedTokens) st))
  = (Symbols.params (PHP.symbols st)
     ++ (ParameterList.typedParam <$> pairs))%list.
Proof.
  intros Hk He Hall. revert st Hk He.
  induction Hall as [|p pairs [Hty Hn] _ IH]; intros st Hk He.
  - cbn. by rewrite app_nil_r.
  - cbn [mbind list_bind fmap list_fmap]. rewrite parseAll_app.
    destruct (typed_parameter_group st p Hk He Hty Hn) as (Hp & He' & _).
    rewrite IH, Hp, <- app_assoc; [reflexivity| |exact He'].
    by rewrite parseAll_isKind.
Qed.

Lemma typed_parameters_in_order_witness :
  Symbols.params
    (PHP.symbols
       (ParameterList.parseAll
          ([("int", "$a"); ("Foo", "$b")] ≫= ParameterList.typedTokens)
          PHP.inParameters))
  = [Param.make "$a" (Some "int"); Param.make "$b" (Some "Foo")].
Proof.
  apply (typed_parameters_in_order PHP.inParameters
           [("int", "$a"); ("Foo", "$b")] eq_refl eq_refl).
  repeat constructor.
Defined.

Lemma untyped_parameters_in_order_witness :
  Symbols.params
    (PHP.symbols
       (ParameterList.parseAll
          [Token.name "$a"; Token.punct ","; Token.name "$b"; Token.operator "=";
           {| Token.label := "num"; Token.value := Some "5" |}]
          PHP.inParameters))
  = [Param.make "$a" None; Param.make "$b" None].
Proof.
  apply (untyped_parameters_in_order PHP.inParameters
           [Token.name "$a"; Token.punct ","; Token.name "$b";
            Token.operator "="; {| Token.label := "num"; Token.value := Some "5" |}]
           eq_refl eq_refl eq_refl).
  repeat constructor.
Defined.

(** One token adds at most one Parameter and removes none.  Every
    Parameter already there except the last is left exactly as it was, name
    included.  The last one keeps its type and its default value, and its
    name is replaced by the token's text exactly when the kind is Function,
    a type is pending and the token is a variable name (whether or not the
    list is open); otherwise it too is unchanged.  Nothing is added while
    the kind is not Function or the list is not open. *)
Theorem parameters_grow_by_at_most_one (token : Token.t) (st : PHP.State) :
  length (Symbols.params (PHP.symbols st))
    <= length (Symbols.params (PHP.symbols (PHP.parseParameters token st)))
    <= S (length (Symbols.params (PHP.symbols st)))
  /\ (forall i p,
        Symbols.params (PHP.symbols st) !! i = Some p ->
        S i < length (Symbols.params (PHP.symbols st)) ->
        Symbols.params (PHP.symbols (PHP.parseParameters token st)) !! i
        = Some p)
  /\ (forall p,
        Symbols.params (PHP.symbols st)
          !! (length (Symbols.params (PHP.symbols st)) - 1) = Some p ->
        Symbols.params (PHP.symbols (PHP.parseParameters token st))
          !! (length (Symbols.params (PHP.symbols st)) - 1)
        = Some (if PHP.isKind SymbolKind.Function st
                   && PHP.expectParameterType st
                   && PHP.isVariableName (Token.value token)
                then Param.setName (Js.toString (Token.value token)) p
                else p))
  /\ (PHP.isKind SymbolKind.Function st = false
      \/ ParameterList.opened token st = false ->
      length (Symbols.params (PHP.symbols (PHP.parseParameters token st)))
      = length (Symbols.params (PHP.symbols st))).
Proof.
  destruct (PHP.isKind SymbolKind.Function st) eqn:Hk.
  2: { unfold PHP.parseParameters. rewrite Hk. repeat split; eauto; lia. }
  rewrite parseParameters_params by exact Hk. cbn [andb].
  destruct (PHP.isVariableName (Token.value token));
    [destruct (ParameterList.opened token st && negb (PHP.expectParameterType st))
       eqn:Ho; [|destruct (PHP.expectParameterType st) eqn:Ht]
    |destruct (ParameterList.typeShaped token && ParameterList.opened token st)
       eqn:Ho].
  all: rewrite ?length_app, ?renameLast_length; cbn [length].
  all: rewrite ?andb_false_r; cbn [andb].
  all: split; [lia|split; [|split]].
  all: try (intros i p Hi Hlt; rewrite ?lookup_app_l by lia;
            first [by rewrite renameLast_lookup_init | exact Hi]).
  all: try (intros p Hp; rewrite ?lookup_app_l by (eapply lookup_lt_Some, Hp);
            first [by apply renameLast_lookup_last | idtac]).
  all: try (intros [H|H]; try discriminate; try reflexivity;
            rewrite H, ?andb_false_r in Ho; discriminate).
  - apply andb_true_iff in Ho as [_ Hn%negb_true_iff]. by rewrite Hn.
  - exact Hp.
  - exact Hp.
  - exact Hp.
Qed.

Lemma parameters_grow_by_at_most_one_witness :
  Symbols.params
    (PHP.symbols
       (PHP.parseParameters (Token.name "$c")
          (PHP.setExpectParameterType true
             (PHP.onSymbols
                (Symbols.setParams
                   [Param.make "$a" None; Param.make "$b" (Some "int")])
                PHP.inParameters)))) !! 0
  = Some (Param.make "$a" None)
  /\ Symbols.params
       (PHP.symbols
          (PHP.parseParameters (Token.name "$c")
             (PHP.setExpectParameterType true
                (PHP.onSymbols
                   (Symbols.setParams
                      [Param.make "$a" None; Param.make "$b" (Some "int")])
                   PHP.inParameters)))) !! 1
     = Some (Param.make "$c" (Some "int")).
Proof.
  destruct (parameters_grow_by_at_most_one (Token.name "$c")
              (PHP.setExpectParameterType true
                 (PHP.onSymbols
                    (Symbols.setParams
                       [Param.make "$a" None; Param.make "$b" (Some "int")])
                    PHP.inParameters))) as (_ & Hinit & Hlast & _).
  split.
  - apply Hinit; [reflexivity|cbn; lia].
  - apply (Hlast (Param.make "$b" (Some "int"))). reflexivity.
Defined.

Section Frames.

Import PHP.

Variable isName : option string -> bool.
Variable matchesIdentifier : option string -> bool.

Ltac by_cases :=
  repeat match goal with
         | |- context [if ?c then _ else _] => destruct c
         | |- context [match ?c with Some _ => _ | None => _ end] => destruct c
         end; repeat split; reflexivity.

(** What each handler leaves alone: [parseParameters] writes only the
    parameter list and the two parameter flags; [parseClass] and
    [parseVariable] never touch the parameters, the return information or
    the parameter flags; [parseFunction] never touches the parameters, the
    parameter flags or [done]. *)
Theorem handlers_frame (token : Token.t) (st : State) :
  (let st' := parseParameters token st in
   done st' = done st /\ expectName st' = expectName st
   /\ expectReturnType st' = expectReturnType st
   /\ Symbols.name (symbols st') = Symbols.name (symbols st)
   /\ Symbols.type (symbols st') = Symbols.type (symbols st)
   /\ Symbols.return_ (symbols st') = Symbols.return_ (symbols st))
  /\ (let st' := parseClass isName token st in
      Symbols.params (symbols st') = Symbols.params (symbols st)
      /\ Symbols.return_ (symbols st') = Symbols.return_ (symbols st)
      /\ expectParameter st' = expectParameter st
      /\ expectParameterType st' = expectParameterType st
      /\ expectReturnType st' = expectReturnType st)
  /\ (let st' := parseFunction isName matchesIdentifier token st in
      Symbols.params (symbols st') = Symbols.params (symbols st)
      /\ done st' = done st
      /\ expectParameter st' = expectParameter st
      /\ expectParameterType st' = expectParameterType st)
  /\ (let st' := parseVariable token st in
      Symbols.params (symbols st') = Symbols.params (symbols st)
      /\ Symbols.return_ (symbols st') = Symbols.return_ (symbols st)
      /\ done st' = done st
      /\ expectParameter st' = expectParameter st
      /\ expectParameterType st' = expectParameterType st
      /\ expectReturnType st' = expectReturnType st).
Proof.
  split; [|split; [|split]]; cbv zeta.
  - unfold parseParameters, parseParameterType, parseParameterName.
    destruct (isKind _ st); [|repeat split; reflexivity].
    destruct (labelled "(" token), (labelled ")" token);
      cbn [expectParameter expectParameterType setExpectParameter];
      by_cases.
  - unfold parseClass. by_cases.
  - unfold parseFunction. by_cases.
  - unfold parseVariable. by_cases.
Qed.

(** With the parameter list closed and the name read, a colon makes the
    function handler expect a return type, the next identifier becomes that
    type, and a following [[] appends "[]" to it.  A [[] seen while no
    return type has been captured gives the type "undefined[]". *)
Theorem return_type_captured (st : State) (type : string) :
  isKind SymbolKind.Function st = true ->
  expectParameter st = false -> expectName st = false ->
  matchesIdentifier (Some type) = true ->
  Grammar.is_ grammar (Some type) "function" = false ->
  (expectReturnType
     (parseFunction isName matchesIdentifier (Token.punct ":") st) = true
   /\ Return.type
        (Symbols.return_
           (symbols
              (parseFunction isName matchesIdentifier (Token.name type)
                 (parseFunction isName matchesIdentifier (Token.punct ":") st))))
      = Some type
   /\ expectReturnType
        (parseFunction isName matchesIdentifier (Token.name type)
           (parseFunction isName matchesIdentifier (Token.punct ":") st))
      = false
   /\ Return.type
        (Symbols.return_
           (symbols
              (parseFunction isName matchesIdentifier (Token.punct "[")
                 (parseFunction isName matchesIdentifier (Token.name type)
                    (parseFunction isName matchesIdentifier (Token.punct ":")
                       st)))))
      = Some (type +:+ "[]"))
  /\ (Return.type (Symbols.return_ (symbols st)) = None ->
      Return.type
        (Symbols.return_
           (symbols (parseFunction isName matchesIdentifier (Token.punct "[") st)))
      = Some "undefined[]").
Proof.
  intros Hk He Hn Hm Hf.
  set (st1 := parseFunction isName matchesIdentifier (Token.punct ":") st).
  set (st2 := parseFunction isName matchesIdentifier (Token.name type) st1).
  set (st3 := parseFunction isName matchesIdentifier (Token.punct "[") st2).
  assert (H1 : st1 = setExpectReturnType true st).
  { subst st1. unfold parseFunction. cbn [Token.value Token.punct].
    rewrite Hk, Hn, He. reflexivity. }
  assert (H2 : st2 = onSymbols (Symbols.setReturnType (Some type))
                       (setExpectReturnType false st1)).
  { subst st2. unfold parseFunction. cbn [Token.value Token.name].
    rewrite Hf, H1. cbn [expectName expectReturnType setExpectReturnType
      expectParameter].
    replace (isKind SymbolKind.Function (setExpectReturnType true st)) with true
      by (symmetry; exact Hk).
    rewrite Hn, He, Hm. reflexivity. }
  assert (H3 : st3 = onSymbols appendBrackets st2).
  { subst st3. unfold parseFunction. cbn [Token.value Token.punct].
    replace (isKind SymbolKind.Function st2) with true; [reflexivity|].
    rewrite H2, H1. symmetry. exact Hk. }
  split.
  - rewrite H3, H2, H1. repeat split; reflexivity.
  - intros Hnone. unfold parseFunction. cbn [Token.value Token.punct].
    change (Grammar.is_ grammar None "function") with false.
    rewrite Hk. change (labelled "[" (Token.punct "[")) with true.
    cbn iota. unfold appendBrackets.
    cbn [symbols onSymbols Symbols.return_ Symbols.setReturnType Return.type].
    by rewrite Hnone.
Qed.

End Frames.

Lemma return_type_captured_witness :
  Return.type
    (Symbols.return_
       (PHP.symbols
          (PHP.parseFunction PHP.isName PHP.matchesIdentifier (Token.punct "[")
             (PHP.parseFunction PHP.isName PHP.matchesIdentifier
                (Token.name "string")
                (PHP.parseFunction PHP.isName PHP.matchesIdentifier
                   (Token.punct ":")
                   (PHP.setExpectParameter false PHP.inParameters))))))
  = Some "string[]"
  /\ Return.type
       (Symbols.return_
          (PHP.symbols
             (PHP.parseFunction PHP.isName PHP.matchesIdentifier
                (Token.punct "[")
                (PHP.setExpectParameter false PHP.inParameters))))
     = Some "undefined[]".
Proof.
  destruct (return_type_captured PHP.isName PHP.matchesIdentifier
              (PHP.setExpectParameter false PHP.inParameters) "string"
              eq_refl eq_refl eq_refl eq_refl eq_refl)
    as [(_ & _ & _ & Hbr) Hundef].
  split; [exact Hbr|]. apply Hundef. reflexivity.
Defined.

Section Names.

Import PHP.

Variable isName : option string -> bool.
Variable matchesIdentifier : option string -> bool.

Lemma parseVariable_settled (token : Token.t) (st : State) :
  isKind SymbolKind.Variable_ st = true -> expectName st = false ->
  parseVariable token st = st.
Proof.
  intros Hk He. unfold parseVariable.
  assert (Hu : unset st = false).
  { unfold unset, isKind, Symbols.is_kind, kind in *.
    apply bool_decide_eq_true in Hk. apply bool_decide_eq_false. congruence. }
  rewrite Hu. cbn [andb]. rewrite Hu, He, andb_false_r. reflexivity.
Qed.

Lemma parseVariable_settled_all (tokens : list Token.t) (st : State) :
  isKind SymbolKind.Variable_ st = true -> expectName st = false ->
  foldl (fun st token => parseVariable token st) st tokens = st.
Proof.
  intros Hk He. induction tokens as [|token tokens IH]; [reflexivity|].
  cbn [foldl]. by rewrite parseVariable_settled.
Qed.

(** The variable handler names the record once.  From a state with no kind,
    the first variable-name token gives the name and the kind Variable and no
    later token changes either; after the keyword [const] the first token
    whose value is truthy (a non-empty string, or a number other than zero)
    gives the name, whatever it is; the tokens in between, which carry no
    value, the empty string or the number zero, are skipped. *)
Theorem variable_named_once (st : State) (rest : list Token.t) :
  kind st = None -> expectName st = false ->
  (forall v,
     isVariableName (Some v) = true ->
     foldl (fun st token => parseVariable token st) st (Token.name v :: rest)
     = onSymbols (fun s => Symbols.setType SymbolKind.Variable_
                             (Symbols.setName (Some v) s)) st)
  /\ (forall skipped token,
        Forall (fun t => Token.truthy t = false) skipped ->
        Token.truthy token = true ->
        foldl (fun st token => parseVariable token st) st
          (Token.keyword "const" :: skipped ++ token :: rest)
        = onSymbols (fun s => Symbols.setName (Token.value token)
                                (Symbols.setType SymbolKind.Variable_ s)) st).
Proof.
  intros Hk He.
  assert (Hu : unset st = true)
    by (unfold unset; by apply bool_decide_eq_true).
  assert (HnV : isKind SymbolKind.Variable_ st = false).
  { unfold isKind, Symbols.is_kind. apply bool_decide_eq_false.
    unfold kind in Hk. congruence. }
  split.
  - intros v Hv. cbn [foldl].
    assert (H1 : parseVariable (Token.name v) st
                 = onSymbols (fun s => Symbols.setType SymbolKind.Variable_
                                         (Symbols.setName (Some v) s)) st).
    { unfold parseVariable. cbn [Token.value Token.name]. rewrite Hu, Hv.
      cbn [andb]. cbn. by rewrite He. }
    rewrite H1. apply parseVariable_settled_all; [reflexivity|exact He].
  - intros skipped token Hs Ht. cbn [foldl].
    assert (H1 : parseVariable (Token.keyword "const") st
                 = setExpectName true
                     (onSymbols (Symbols.setType SymbolKind.Variable_) st)).
    { unfold parseVariable. cbn [Token.value Token.keyword]. rewrite Hu.
      cbn [andb]. change (isVariableName (Some "const")) with false.
      cbn iota. rewrite Hu. reflexivity. }
    rewrite H1, foldl_app. cbn [foldl].
    set (st1 := setExpectName true _).
    assert (Hskip : foldl (fun st token => parseVariable token st) st1 skipped
                    = st1).
    { induction Hs as [|t skipped Htr _ IH]; [reflexivity|]. cbn [foldl].
      assert (H : parseVariable t st1 = st1).
      { unfold parseVariable. subst st1. cbn. rewrite Htr, !andb_false_r.
        reflexivity. }
      by rewrite H. }
    rewrite Hskip.
    assert (H2 : parseVariable token st1
                 = onSymbols (fun s => Symbols.setName (Token.value token)
                                         (Symbols.setType SymbolKind.Variable_ s))
                     st).
    { unfold parseVariable. subst st1. cbn. rewrite Ht.
      destruct st; cbn in He |- *. by rewrite He. }
    rewrite H2. apply parseVariable_settled_all; [reflexivity|exact He].
Qed.

(** After a class keyword the next name token gives the class its name and
    sets [done]; no later token that is not itself a class keyword changes
    what the class handler has set. *)
Theorem class_named_once (st : State) (keyword name : string)
    (rest : list Token.t) :
  Grammar.is_ grammar (Some keyword) "class" = true ->
  Grammar.is_ grammar (Some name) "class" = false ->
  isName (Some name) = true ->
  Forall (fun t => Grammar.is_ grammar (Token.value t) "class" = false) rest ->
  foldl (fun st token => parseClass isName token st) st
    (Token.keyword keyword :: Token.name name :: rest)
  = setDone true
      (setExpectName false
         (onSymbols (fun s => Symbols.setName (Some name)
                                (Symbols.setType SymbolKind.Class s)) st)).
Proof.
  intros Hkw Hn HisName Hrest. cbn [foldl].
  assert (H1 : parseClass isName (Token.keyword keyword) st
               = setExpectName true
                   (onSymbols (Symbols.setType SymbolKind.Class) st)).
  { unfold parseClass. cbn [Token.value Token.keyword]. by rewrite Hkw. }
  rewrite H1.
  assert (H2 : parseClass isName (Token.name name)
                 (setExpectName true
                    (onSymbols (Symbols.setType SymbolKind.Class) st))
               = setDone true
                   (setExpectName false
                      (onSymbols (fun s => Symbols.setName (Some name)
                                    (Symbols.setType SymbolKind.Class s)) st))).
  { unfold parseClass. cbn [Token.value Token.name]. rewrite Hn, HisName.
    reflexivity. }
  rewrite H2. set (st2 := setDone true _).
  induction Hrest as [|t rest Ht _ IH]; [reflexivity|]. cbn [foldl].
  rewrite (parseClass_idle isName t st2 Ht eq_refl). exact IH.
Qed.

End Names.

Lemma variable_named_once_witness :
  foldl (fun st token => PHP.parseVariable token st) PHP.start
    [Token.name "$foo"; Token.operator "="; Token.name "$bar"]
  = PHP.onSymbols (fun s => Symbols.setType SymbolKind.Variable_
                              (Symbols.setName (Some "$foo") s)) PHP.start
  /\ foldl (fun st token => PHP.parseVariable token st) PHP.start
       (Token.keyword "const" :: [Token.num "0"] ++ Token.name "FOO"
          :: [Token.operator "="])
     = PHP.onSymbols (fun s => Symbols.setName (Some "FOO")
                                 (Symbols.setType SymbolKind.Variable_ s))
         PHP.start.
Proof.
  destruct (variable_named_once PHP.start [Token.operator "="; Token.name "$bar"]
              eq_refl eq_refl) as [Hvar _].
  destruct (variable_named_once PHP.start [Token.operator "="]
              eq_refl eq_refl) as [_ Hconst].
  split.
  - apply Hvar. reflexivity.
  - apply (Hconst [Token.num "0"] (Token.name "FOO"));
      [repeat constructor|reflexivity].
Defined.

Lemma class_named_once_witness :
  foldl (fun st token => PHP.parseClass PHP.isName token st) PHP.start
    [Token.keyword "class"; Token.name "Bar"; Token.name "extends";
     Token.name "Foo"]
  = PHP.setDone true
      (PHP.setExpectName false
         (PHP.onSymbols (fun s => Symbols.setName (Some "Bar")
                                    (Symbols.setType SymbolKind.Class s))
            PHP.start)).
Proof.
  apply (class_named_once PHP.isName PHP.start "class" "Bar"
           [Token.name "extends"; Token.name "Foo"] eq_refl eq_refl eq_refl).
  repeat constructor.
Defined.

(** ** The classifiers and the nullable types *)

(** No text is both a variable name and a type, and a variable name is no
    keyword of any grammar category; a text that is a type is a non-empty
    string.  So for one token at most one of the two parameter handlers
    appends a Parameter. *)
Theorem type_and_variable_name_exclusive (v : string) :
  (PHP.isVariableName (Some v) = true ->
   PHP.isType v = false
   /\ forall c, Grammar.is_ PHP.grammar (Some v) c = false)
  /\ (PHP.isType v = true ->
      PHP.isVariableName (Some v) = false /\ Js.truthy (Some v) = true).
Proof.
  split.
  - intros Hv. split; [by apply variableName_not_type|].
    intros c. by apply variableName_not_keyword.
  - apply isType_not_variableName.
Qed.

Lemma type_and_variable_name_exclusive_witness :
  (PHP.isType "$bar" = false
   /\ forall c, Grammar.is_ PHP.grammar (Some "$bar") c = false)
  /\ (PHP.isVariableName (Some "int") = false /\ Js.truthy (Some "int") = true).
Proof.
  split.
  - apply (proj1 (type_and_variable_name_exclusive "$bar")). reflexivity.
  - apply (proj2 (type_and_variable_name_exclusive "int")). reflexivity.
Defined.

(** The nullable post-processing returns unchanged every text that
    [isType] accepts: no type the parameter handler can capture begins with
    the sigil. *)
Theorem formatNullable_keeps_types (config : Config.t) (type : string) :
  PHP.isType type = true -> PHP.formatNullable config type = type.
Proof.
  intros Ht. unfold PHP.formatNullable.
  destruct type as [|c r]; [reflexivity|]. cbn [PHP.nullable_test].
  destruct (Ascii.eqb_spec c "?") as [->|]; [|reflexivity].
  exfalso. unfold PHP.isType in Ht.
  apply andb_true_iff in Ht as [_ [Ht|Hc]%orb_true_iff].
  - apply (is_category PHP.grammar _ "types" (Grammar.types PHP.grammar) eq_refl)
      in Ht.
    cbn in Ht. rewrite !elem_of_cons, elem_of_nil in Ht.
    repeat (destruct Ht as [Ht|Ht]; [discriminate Ht|]). destruct Ht.
  - discriminate Hc.
Qed.

Lemma formatNullable_keeps_types_witness :
  PHP.formatNullable (Parser.config Parser.default) "Foo" = "Foo".
Proof. apply formatNullable_keeps_types. reflexivity. Defined.

Lemma string_length_append (a b : string) :
  String.length (a +:+ b) = String.length a + String.length b.
Proof. induction a as [|c a IH]; simpl; [reflexivity|by f_equal]. Qed.

(** Formatting a type twice gives the same as formatting it once exactly
    when the mixed policy is set or the type does not begin with two sigils:
    under the union policy [??T] becomes [?T|null] and then
    [T|null|null]. *)
Theorem formatNullable_twice (config : Config.t) (type : string) :
  PHP.formatNullable config (PHP.formatNullable config type)
  = PHP.formatNullable config type
  <-> Config.phpMixedUnionTypes config = true
      \/ PHP.nullable_test type && PHP.nullable_test (PHP.nullable_remove type)
         = false.
Proof.
  unfold PHP.formatNullable.
  destruct (PHP.nullable_test type) eqn:Ht; cbn [andb].
  2: { rewrite Ht. split; auto. }
  destruct (Config.phpMixedUnionTypes config) eqn:Hm; [split; auto|].
  assert (Hn : PHP.nullable_test (PHP.nullable_remove type +:+ "|null")
               = PHP.nullable_test (PHP.nullable_remove type))
    by (destruct (PHP.nullable_remove type); reflexivity).
  rewrite Hn. destruct (PHP.nullable_test (PHP.nullable_remove type)) eqn:Hr.
  - split; [|intros [H|H]; discriminate]. intros H. exfalso.
    apply (f_equal String.length) in H. rewrite !string_length_append in H.
    assert (Hl : String.length (PHP.nullable_remove (PHP.nullable_remove type +:+ "|null"))
                 + 1 = String.length (PHP.nullable_remove type +:+ "|null")).
    { destruct (PHP.nullable_remove type) as [|c r]; [discriminate|].
      cbn [PHP.nullable_test] in Hr.
      change (String c r +:+ "|null") with (String c (r +:+ "|null")).
      cbn [PHP.nullable_remove String.length]. rewrite Hr. lia. }
    rewrite string_length_append in Hl. cbn in H, Hl. lia.
  - split; auto.
Qed.

(** ** The renderer *)

(** [escape] returns a text without [$] unchanged; a text with a [$] comes
    back one character longer and still has a [$], so escaping it again
    adds a second backslash: escaping is not idempotent. *)
Theorem escape_adds_one_backslash (s : string) :
  (Js.all Text.notDollar s = true -> Parser.escape s = s)
  /\ (Js.all Text.notDollar s = false ->
      String.length (Parser.escape s) = S (String.length s)
      /\ Js.all Text.notDollar (Parser.escape s) = false
      /\ String.length (Parser.escape (Parser.escape s))
         = S (S (String.length s))).
Proof.
  unfold Parser.escape.
  assert (H1 : Js.all Text.notDollar s = true -> Js.replaceFirstDollar s = s).
  { induction s as [|c r IH]; [reflexivity|]. cbn. unfold Text.notDollar at 1.
    destruct (Ascii.eqb c "$"); [discriminate|]. cbn. intros H. by rewrite IH. }
  assert (H2 : forall t, Js.all Text.notDollar t = false ->
                 String.length (Js.replaceFirstDollar t) = S (String.length t)
                 /\ Js.all Text.notDollar (Js.replaceFirstDollar t) = false).
  { intros t. induction t as [|c r IH]; [discriminate|]. cbn.
    unfold Text.notDollar at 1.
    destruct (Ascii.eqb c "$") eqn:Hc; cbn.
    - intros _. split; reflexivity.
    - intros H. destruct (IH H) as [Hl Ha]. split; [by rewrite Hl|].
      unfold Text.notDollar at 1. by rewrite Hc. }
  split; [exact H1|]. intros H. destruct (H2 s H) as [Hl Ha].
  split; [exact Hl|]. split; [exact Ha|].
  destruct (H2 _ Ha) as [Hl2 _]. by rewrite Hl2, Hl.
Qed.

Lemma escape_adds_one_backslash_witness :
  Parser.escape "foo" = "foo"
  /\ String.length (Parser.escape (Parser.escape "$foo")) = 6.
Proof.
  split.
  - apply (proj1 (escape_adds_one_backslash "foo")). reflexivity.
  - apply (proj2 (escape_adds_one_backslash "$foo")). reflexivity.
Defined.

(** [renderBlock] throws exactly on the records that are no variable and
    whose parameter list has both a parameter with a type and one without;
    on every other record it returns a string. *)
Theorem renderBlock_throws_iff (this : Parser.t) (tokens : Tokens.t) :
  (exists e, Parser.renderBlock this tokens = Js.Throw e)
  <-> Parser.isVariable tokens = false
      /\ (exists p, p ∈ Tokens.params tokens /\ Parser.typed p)
      /\ (exists q, q ∈ Tokens.params tokens /\ Parser.untyped q).
Proof.
  assert (Hblock : forall b,
            Parser.renderParamTags this tokens
              (Parser.push
                 (Parser.placeholderText 1
                    ("[" +:+ Parser.escape (Tokens.name tokens) +:+ " description]"))
                 {| Parser.blockList := []; Parser.count := 2 |}) = Js.Normal b ->
            exists s, Parser.renderBlock this tokens = Js.Normal s).
  { intros b Hb. unfold Parser.renderBlock, Parser.renderLines.
    cbn [Parser.placeholder Parser.count Parser.blockList]. rewrite Hb.
    cbn. eauto. }
  split.
  - intros [e He].
    destruct (Parser.isVariable tokens) eqn:Hv.
    { exfalso. destruct (Hblock _ ltac:(unfold Parser.renderParamTags;
        rewrite Hv, andb_false_r; reflexivity)) as [s Hs]. congruence. }
    split; [reflexivity|].
    destruct (decide (Forall Parser.typed (Tokens.params tokens))) as [Ht|Ht].
    { exfalso. destruct (Tokens.params tokens) as [|a l] eqn:Hl.
      - destruct (Hblock _ ltac:(unfold Parser.renderParamTags;
          rewrite Hl; reflexivity)) as [s Hs]. congruence.
      - rewrite <- Hl in *.
        destruct (renderParams_uniform this tokens (Tokens.params tokens)
                    (Parser.push "" (Parser.push
                       (Parser.placeholderText 1
                          ("[" +:+ Parser.escape (Tokens.name tokens)
                           +:+ " description]"))
                       {| Parser.blockList := []; Parser.count := 2 |})))
          as [_ Hloop]; [congruence|auto|].
        destruct (Hblock _ ltac:(unfold Parser.renderParamTags;
          rewrite Hv, bool_decide_eq_false_2 by (rewrite Hl; discriminate);
          exact Hloop)) as [s Hs]. congruence. }
    destruct (decide (Forall Parser.untyped (Tokens.params tokens))) as [Hu|Hu].
    { exfalso. destruct (Tokens.params tokens) as [|a l] eqn:Hl.
      - destruct (Hblock _ ltac:(unfold Parser.renderParamTags;
          rewrite Hl; reflexivity)) as [s Hs]. congruence.
      - rewrite <- Hl in *.
        destruct (renderParams_uniform this tokens (Tokens.params tokens)
                    (Parser.push "" (Parser.push
                       (Parser.placeholderText 1
                          ("[" +:+ Parser.escape (Tokens.name tokens)
                           +:+ " description]"))
                       {| Parser.blockList := []; Parser.count := 2 |})))
          as [_ Hloop]; [congruence| |].
        { intros p Hp [ty Hty]. rewrite Forall_forall in Hu.
          specialize (Hu _ Hp). unfold Parser.untyped in Hu. congruence. }
        destruct (Hblock _ ltac:(unfold Parser.renderParamTags;
          rewrite Hv, bool_decide_eq_false_2 by (rewrite Hl; discriminate);
          exact Hloop)) as [s Hs]. congruence. }
    apply not_Forall_Exists, Exists_exists in Ht; [|apply _].
    apply not_Forall_Exists, Exists_exists in Hu; [|apply _].
    destruct Ht as (q & Hq & Hnt), Hu as (p & Hp & Hnu). split.
    + exists p. split; [exact Hp|]. unfold Parser.typed, Parser.untyped in *.
      cbn in Hnu. destruct (Param.type p); [by eexists|congruence].
    + exists q. split; [exact Hq|]. unfold Parser.typed, Parser.untyped in *.
      cbn in Hnt. destruct (Param.type q); [|reflexivity].
      exfalso. apply Hnt. by eexists.
  - intros (Hv & Hp & Hq). exists Js.TypeError.
    unfold Parser.renderBlock, Parser.renderLines, Parser.renderParamTags.
    cbn [Parser.placeholder]. rewrite Hv, bool_decide_eq_false_2.
    + cbn [negb andb]. by rewrite renderParams_throw.
    + destruct Hp as (p & Hp & _).
      destruct (Tokens.params tokens); [inversion Hp|discriminate].
Qed.

Lemma string_of_uint_digits (d : Decimal.uint) :
  Js.all Text.isDigit (NilEmpty.string_of_uint d) = true.
Proof. induction d; cbn; auto. Qed.

Lemma ofNat_digits (n : nat) : Js.all Text.isDigit (Js.ofNat n) = true.
Proof.
  unfold Js.ofNat, NilZero.string_of_uint.
  destruct (Nat.to_uint n); try apply (string_of_uint_digits (_ _)); reflexivity.
Qed.

Lemma ofNat_inj (n m : nat) : Js.ofNat n = Js.ofNat m -> n = m.
Proof.
  unfold Js.ofNat. intros H.
  assert (Hu : forall k, NilZero.uint_of_string
                  (NilZero.string_of_uint (Nat.to_uint k))
                = Some (Nat.to_uint k)).
  { intros k. apply NilZero.usu. intros Hnil.
    pose proof (Unsigned.of_to k) as Hk. rewrite Hnil in Hk. cbn in Hk.
    subst k. discriminate Hnil. }
  pose proof (Hu n) as Hn. rewrite H, Hu in Hn. injection Hn as Hn.
  by apply Unsigned.to_uint_inj.
Qed.

Lemma digits_split (d1 d2 s t : string) :
  Js.all Text.isDigit d1 = true -> Js.all Text.isDigit d2 = true ->
  d1 +:+ String ":" s = d2 +:+ String ":" t -> d1 = d2 /\ s = t.
Proof.
  revert d2. induction d1 as [|c d1 IH]; intros [|c2 d2] H1 H2; cbn.
  - intros [= ->]. done.
  - intros [= <- _]. cbn in H2. discriminate.
  - intros [= -> _]. cbn in H1. discriminate.
  - intros [= -> H]. cbn in H1, H2.
    apply andb_true_iff in H1 as [_ H1], H2 as [_ H2].
    destruct (IH _ H1 H2 H) as [-> ->]. done.
Qed.

Lemma append_inj_r (s t u : string) : s +:+ u = t +:+ u -> s = t.
Proof.
  intros H.
  assert (Happ : forall a b, String.length (a +:+ b)
                             = String.length a + String.length b)
    by (intros a b; induction a as [|c a IH]; simpl; [reflexivity|by f_equal]).
  assert (Hl : String.length s = String.length t).
  { apply (f_equal String.length) in H. rewrite !Happ in H. lia. }
  revert t H Hl. induction s as [|c s IH]; intros [|c' t]; cbn; try discriminate.
  - done.
  - intros [= -> H] [= Hl]. by rewrite (IH _ H Hl).
Qed.

(** A placeholder determines its number and its seed text: two placeholders
    are the same string only if they carry the same number and the same
    text, so the placeholders of one block, numbered apart, are pairwise
    distinct. *)
Theorem placeholderText_inj (n m : nat) (s t : string) :
  Parser.placeholderText n s = Parser.placeholderText m t <-> n = m /\ s = t.
Proof.
  split; [|by intros [-> ->]].
  unfold Parser.placeholderText. cbn [String.append]. intros [= H].
  change (Js.ofNat n +:+ String ":" (s +:+ "}")
          = Js.ofNat m +:+ String ":" (t +:+ "}")) in H.
  apply digits_split in H as [Hn Hs]; try apply ofNat_digits.
  split; [by apply ofNat_inj|by apply append_inj_r in Hs].
Qed.

Lemma widest_attained {T} (f : T -> string) (l : list T) :
  l <> [] -> exists x, x ∈ l /\ String.length (f x) = Parser.widest (f <$> l).
Proof.
  induction l as [|a l IH]; [congruence|]. intros _.
  change (Parser.widest (f <$> a :: l))
    with (Nat.max (String.length (f a)) (Parser.widest (f <$> l))).
  destruct l as [|b l'].
  - exists a. split; [apply elem_of_cons; by left|]. cbn. lia.
  - destruct IH as (x & Hx & Hm); [discriminate|].
    destruct (Nat.max_spec (String.length (f a)) (Parser.widest (f <$> b :: l')))
      as [[_ ->]|[_ ->]].
    + exists x. split; [apply elem_of_cons; by right|exact Hm].
    + exists a. split; [apply elem_of_cons; by left|reflexivity].
Qed.

(** [max('name')] is the length of a longest parameter name: no name is
    longer and some name has that length; [max('type')] is likewise the
    length of a longest type when every parameter has one.  On an empty
    parameter list both throw a TypeError. *)
Theorem max_is_longest (tokens : Tokens.t) :
  (Tokens.params tokens = [] ->
   Parser.maxName tokens = Js.Throw Js.TypeError
   /\ Parser.maxType tokens = Js.Throw Js.TypeError)
  /\ (Tokens.params tokens <> [] ->
      exists m,
        Parser.maxName tokens = Js.Normal m
        /\ (forall p, p ∈ Tokens.params tokens ->
                      String.length (Param.name p) <= m)
        /\ (exists p, p ∈ Tokens.params tokens
                      /\ String.length (Param.name p) = m))
  /\ (Tokens.params tokens <> [] -> Forall Parser.typed (Tokens.params tokens) ->
      exists m,
        Parser.maxType tokens = Js.Normal m
        /\ (forall p ty, p ∈ Tokens.params tokens -> Param.type p = Some ty ->
                         String.length ty <= m)
        /\ (exists p ty, p ∈ Tokens.params tokens /\ Param.type p = Some ty
                         /\ String.length ty = m)).
Proof.
  split; [|split].
  - intros H. unfold Parser.maxName, Parser.maxType. rewrite H. split; reflexivity.
  - intros Hne. eexists. split; [by apply maxName_normal|]. split.
    + intros p Hp. by apply widest_bound.
    + by apply widest_attained.
  - intros Hne Hall. eexists. split; [by apply maxType_normal|]. split.
    + intros p ty Hp Hty.
      pose proof (widest_bound Parser.typeText _ _ Hp) as H.
      unfold Parser.typeText at 1 in H. by rewrite Hty in H.
    + destruct (widest_attained Parser.typeText _ Hne) as (p & Hp & Hm).
      rewrite Forall_forall in Hall. destruct (Hall _ Hp) as [ty Hty].
      exists p, ty. split; [exact Hp|]. split; [exact Hty|].
      unfold Parser.typeText in Hm at 1. by rewrite Hty in Hm.
Qed.

Lemma max_is_longest_witness :
  exists m,
    Parser.maxName
      (Tokens.make "foo" "function"
         [Param.make "$a" None; Param.make "$long" None]) = Js.Normal m
    /\ (exists p, p ∈ [Param.make "$a" None; Param.make "$long" None]
                  /\ String.length (Param.name p) = m).
Proof.
  destruct (proj1 (proj2 (max_is_longest
              (Tokens.make "foo" "function"
                 [Param.make "$a" None; Param.make "$long" None]))))
    as (m & Hm & _ & Hp); [discriminate|].
  exists m. split; [exact Hm|exact Hp].
Defined.

(** The number of lines of a rendered block: one for the description; for a
    record that is no variable and has parameters, a blank line and one line
    per parameter; a blank line and the tag line for the return tag when it
    is shown; a blank line and the tag line for the var tag of a
    variable. *)
Theorem block_line_count (this : Parser.t) (tokens : Tokens.t)
    (b : Parser.Block) :
  Parser.renderLines this tokens = Js.Normal b ->
  length (Parser.blockList b)
  = 1
    + (if Parser.isVariable tokens then 0
       else match Tokens.params tokens with
            | [] => 0
            | params => S (length params)
            end)
    + (if Parser.returnShown this tokens then 2 else 0)
    + (if Parser.isVariable tokens then 2 else 0).
Proof.
  unfold Parser.renderLines. cbn [Parser.placeholder Parser.count Parser.blockList].
  intros H. apply bind_normal in H as (b1 & Htags & H). injection H as <-.
  assert (Hb1 : length (Parser.blockList b1)
                = 1 + (if Parser.isVariable tokens then 0
                       else match Tokens.params tokens with
                            | [] => 0
                            | params => S (length params)
                            end)).
  { unfold Parser.renderParamTags in Htags.
    destruct (Parser.isVariable tokens).
    - rewrite andb_false_r in Htags. by injection Htags as <-.
    - destruct (Tokens.params tokens) as [|a l] eqn:Hl.
      + by injection Htags as <-.
      + cbn [length bool_decide negb andb] in Htags.
        rewrite bool_decide_eq_false_2 in Htags by discriminate.
        apply renderParams_rows in Htags as (rows & _ & Hbl & _ & Hlen & _).
        rewrite Hbl, length_app, length_fmap, Hlen. cbn. lia. }
  unfold Parser.renderVarTag, Parser.renderReturnTag, Parser.returnShown.
  destruct (Parser.isVariable tokens).
  - rewrite andb_false_r. cbn. rewrite !length_app, Hb1. cbn. lia.
  - rewrite andb_true_r.
    destruct (Return.present (Tokens.return_ tokens)
              && Config.defaultReturnTag (Parser.config this)).
    + cbn. rewrite !length_app, Hb1. cbn. lia.
    + rewrite Hb1. lia.
Qed.

Lemma block_line_count_witness :
  length
    (Parser.blockList
       {| Parser.blockList :=
            ["${1:[foo description]}"; ""; "@return  ${2:[type]}"];
          Parser.count := 3 |}) = 3.
Proof.
  exact (block_line_count Parser.default (Tokens.make "foo" "function" [])
           {| Parser.blockList :=
                ["${1:[foo description]}"; ""; "@return  ${2:[type]}"];
              Parser.count := 3 |} eq_refl).
Defined.

(** ** The lookups of the base parser *)

Section FindByType.

Context {A : Type}.
Implicit Types (o x : Lexed.t A) (objs arr : list (Lexed.t A)).

Variable ty : string.

Lemma rounds (objs : list (Lexed.t A)) (n : nat) :
  n <= length objs ->
  let state := foldl (Lexed.visit ty) (None, objs) (seq 0 n) in
  length state.2 = length objs
  /\ (forall j o, objs !! j = Some o -> state.2 !! j = Some (Lexed.marked ty n j o))
  /\ (state.1 = None <->
      forall j o, j < n -> objs !! j = Some o -> Lexed.type o <> ty)
  /\ (forall x, state.1 = Some x ->
        exists i o, i < n /\ objs !! i = Some o /\ Lexed.type o = ty
                    /\ x = Lexed.setIndex i o
                    /\ forall j o', i < j < n -> objs !! j = Some o' ->
                                    Lexed.type o' <> ty).
Proof.
  induction n as [|n IH]; intros Hn; cbn zeta.
  - cbn. split; [done|]. split; [|split; [split; [intros; lia|done]|done]].
    intros j o Hj. unfold Lexed.marked. rewrite bool_decide_eq_false_2 by lia. done.
  - rewrite seq_S, foldl_app. cbn [foldl Nat.add].
    destruct (IH ltac:(lia)) as (Hlen & Harr & Hnone & Hsome). cbn zeta in *.
    set (state := foldl (Lexed.visit ty) (None, objs) (seq 0 n)) in *.
    destruct (lookup_lt_is_Some_2 objs n ltac:(lia)) as [on Hon].
    unfold Lexed.visit. rewrite (Harr _ _ Hon).
    assert (Hm : Lexed.marked ty n n on = on)
      by (unfold Lexed.marked; rewrite bool_decide_eq_false_2 by lia; done).
    rewrite Hm. destruct (decide (Lexed.type on = ty)) as [Hty|Hty].
    + rewrite bool_decide_eq_true_2 by exact Hty. cbn [fst snd].
      split; [by rewrite length_insert|]. split; [|split].
      * intros j o Hj. destruct (decide (j = n)) as [->|Hne].
        -- rewrite list_lookup_insert_eq by lia.
           rewrite Hon in Hj. injection Hj as <-. unfold Lexed.marked.
           rewrite bool_decide_eq_true_2 by (split; [lia|exact Hty]). done.
        -- rewrite list_lookup_insert_ne by congruence. rewrite (Harr _ _ Hj).
           f_equal. unfold Lexed.marked.
           destruct (decide (Lexed.type o = ty)) as [Ho|Ho].
           ++ destruct (decide (j < n)).
              ** rewrite !bool_decide_eq_true_2 by (split; [lia|done]). done.
              ** rewrite !bool_decide_eq_false_2 by lia. done.
           ++ rewrite !bool_decide_eq_false_2 by tauto. done.
      * split; [discriminate|]. intros H. exfalso.
        apply (H n on); [lia|done|done].
      * intros x [= <-]. exists n, on.
        split; [lia|]. split; [done|]. split; [done|]. split; [done|].
        intros j o' Hj. lia.
    + rewrite bool_decide_eq_false_2 by exact Hty.
      split; [exact Hlen|]. split; [|split].
      * intros j o Hj. rewrite (Harr _ _ Hj). f_equal. unfold Lexed.marked.
        destruct (decide (j = n)) as [->|Hne].
        -- rewrite Hon in Hj. injection Hj as <-.
           rewrite !bool_decide_eq_false_2 by tauto. done.
        -- destruct (decide (j < n /\ Lexed.type o = ty)) as [Hc|Hc].
           ++ rewrite !bool_decide_eq_true_2 by (split; [lia|tauto]). done.
           ++ rewrite !bool_decide_eq_false_2; [done| |done].
              intros [? ?]. apply Hc. split; [lia|done].
      * rewrite Hnone. split.
        -- intros H j o Hj Ho. destruct (decide (j = n)) as [->|Hne].
           ++ rewrite Hon in Ho. by injection Ho as <-.
           ++ apply (H j o); [lia|done].
        -- intros H j o Hj Ho. apply (H j o); [lia|done].
      * intros x Hx. destruct (Hsome x Hx) as (i & o & Hi & Ho & Hto & -> & Hlast).
        exists i, o.
        split; [lia|]. split; [done|]. split; [done|]. split; [done|].
        intros j o' Hj Ho'. destruct (decide (j = n)) as [->|Hne].
        -- rewrite Hon in Ho'. by injection Ho' as <-.
        -- apply (Hlast j o'); [lia|done].
Qed.

(** [findByType] returns [null] exactly when no object has the type;
    otherwise it returns the last object of that type, not the first, with
    its position written into [index], and that is the very object the array
    holds at that position. *)
Theorem findByType_last_match (lexedObjs : list (Lexed.t A)) :
  ((Lexed.findByType ty lexedObjs).1 = None <->
   forall o, o ∈ lexedObjs -> Lexed.type o <> ty)
  /\ (forall x,
        (Lexed.findByType ty lexedObjs).1 = Some x ->
        exists i o,
          lexedObjs !! i = Some o /\ Lexed.type o = ty
          /\ x = Lexed.setIndex i o
          /\ (Lexed.findByType ty lexedObjs).2 !! i = Some x
          /\ forall j o', i < j -> lexedObjs !! j = Some o' ->
                          Lexed.type o' <> ty).
Proof.
  destruct (rounds lexedObjs (length lexedObjs) (le_n _))
    as (Hlen & Harr & Hnone & Hsome). cbn zeta in *.
  fold (Lexed.findByType ty lexedObjs) in *. split.
  - rewrite Hnone. split.
    + intros H o [j Hj]%list_elem_of_lookup_1.
      apply (H j o); [|done]. eapply lookup_lt_Some, Hj.
    + intros H j o _ Hj. apply H. eapply list_elem_of_lookup_2, Hj.
  - intros x Hx. destruct (Hsome x Hx) as (i & o & Hi & Ho & Hto & -> & Hlast).
    exists i, o. split; [done|]. split; [done|]. split; [done|]. split.
    + rewrite (Harr _ _ Ho). unfold Lexed.marked.
      rewrite bool_decide_eq_true_2 by (split; [lia|done]). done.
    + intros j o' Hj Ho'. apply (Hlast j o'); [|done].
      split; [done|]. eapply lookup_lt_Some, Ho'.
Qed.

(** The call writes to the array: it keeps its length, every object of the
    type searched has its position written into [index], not only the one
    returned, and every other object is left as it was. *)
Theorem findByType_marks_matches (lexedObjs : list (Lexed.t A)) :
  length (Lexed.findByType ty lexedObjs).2 = length lexedObjs
  /\ forall j o,
       lexedObjs !! j = Some o ->
       (Lexed.findByType ty lexedObjs).2 !! j
       = Some (if bool_decide (Lexed.type o = ty) then Lexed.setIndex j o
               else o).
Proof.
  destruct (rounds lexedObjs (length lexedObjs) (le_n _))
    as (Hlen & Harr & _). cbn zeta in *.
  fold (Lexed.findByType ty lexedObjs) in *. split; [exact Hlen|].
  intros j o Hj. rewrite (Harr _ _ Hj). f_equal. unfold Lexed.marked.
  pose proof (lookup_lt_Some _ _ _ Hj).
  destruct (decide (Lexed.type o = ty)).
  - rewrite !bool_decide_eq_true_2 by (try split; done). done.
  - rewrite !bool_decide_eq_false_2 by tauto. done.
Qed.

End FindByType.

Lemma findByType_last_match_witness :
  (Lexed.findByType "name"
     [{| Lexed.type := "name"; Lexed.index := None; Lexed.fields := "a" |};
      {| Lexed.type := "op"; Lexed.index := None; Lexed.fields := "=" |};
      {| Lexed.type := "name"; Lexed.index := None; Lexed.fields := "b" |}]).1
  = Some {| Lexed.type := "name"; Lexed.index := Some 2; Lexed.fields := "b" |}
  /\ (Lexed.findByType "num"
        [{| Lexed.type := "name"; Lexed.index := None; Lexed.fields := "a" |}]).1
     = None.
Proof.
  split; [reflexivity|].
  apply (proj1 (findByType_last_match "num"
                  [{| Lexed.type := "name"; Lexed.index := None;
                      Lexed.fields := "a" |}])).
  intros o Ho. apply list_elem_of_singleton in Ho. by subst o.
Defined.

Lemma findByType_marks_matches_witness :
  (Lexed.findByType "name"
     [{| Lexed.type := "name"; Lexed.index := None; Lexed.fields := "a" |};
      {| Lexed.type := "op"; Lexed.index := None; Lexed.fields := "=" |}]).2 !! 0
  = Some {| Lexed.type := "name"; Lexed.index := Some 0; Lexed.fields := "a" |}.
Proof.
  apply (proj2 (findByType_marks_matches "name"
                  [{| Lexed.type := "name"; Lexed.index := None;
                      Lexed.fields := "a" |};
                   {| Lexed.type := "op"; Lexed.index := None;
                      Lexed.fields := "=" |}]) 0
           {| Lexed.type := "name"; Lexed.index := None; Lexed.fields := "a" |}).
  reflexivity.
Defined.

Lemma scan_iff (grammer : gmap string Grammer.value) (token : string) :
  Grammer.scan grammer token = true
  <-> exists k, grammer !! k = Some (Grammer.Str token).
Proof.
  unfold Grammer.scan. rewrite existsb_exists. split.
  - intros ([k v] & Hin & Hv). apply bool_decide_eq_true in Hv. cbn in Hv.
    subst v. exists k. by apply elem_of_map_to_list, list_elem_of_In.
  - intros [k Hk]. exists (k, Grammer.Str token). split.
    + by apply list_elem_of_In, elem_of_map_to_list.
    + by apply bool_decide_eq_true.
Qed.

Lemma elements_iff (v : Grammer.value) (token : string) :
  existsb (fun e => bool_decide (e = token)) (Grammer.elements v) = true
  <-> token ∈ Grammer.elements v.
Proof.
  rewrite existsb_exists. split.
  - intros (e & Hin & He). apply bool_decide_eq_true in He. subst e.
    by apply list_elem_of_In.
  - intros Hin. exists token. split; [by apply list_elem_of_In|].
    by apply bool_decide_eq_true.
Qed.

(** Asked about one of the three lists ([modifiers], [variables],
    [types]), [matchesGrammer] is the membership test of that list exactly
    for the grammars whose string-valued properties are all elements of the
    list.  The loop over the list does not return when it finds nothing,
    and the scan of all properties that follows accepts the keyword of any
    other category: with [function: "function"] in the grammar, "function"
    is reported as a modifier. *)
Theorem matchesGrammer_list_exact (grammer : gmap string Grammer.value)
    (type : string) (l : list string) :
  Grammer.isList type = true -> grammer !! type = Some (Grammer.Arr l) ->
  (forall token, Grammer.matchesGrammer grammer token type = true <-> token ∈ l)
  <-> (forall k s, grammer !! k = Some (Grammer.Str s) -> s ∈ l).
Proof.
  intros Hlist Hty.
  assert (Hm : forall token,
            Grammer.matchesGrammer grammer token type = true
            <-> token ∈ l \/ exists k, grammer !! k = Some (Grammer.Str token)).
  { intros token. unfold Grammer.matchesGrammer. rewrite Hty, Hlist.
    destruct (existsb _ _) eqn:He.
    - apply elements_iff in He. cbn in He. tauto.
    - rewrite scan_iff. split; [tauto|]. intros [Hin|H]; [|exact H].
      apply (elements_iff (Grammer.Arr l)) in Hin. congruence. }
  split.
  - intros Hexact k s Hk. apply Hexact, Hm. right. by exists k.
  - intros Hsub token. rewrite Hm. split; [|tauto].
    intros [Hin|[k Hk]]; [exact Hin|]. by apply (Hsub k).
Qed.

Lemma matchesGrammer_list_exact_witness :
  Grammer.matchesGrammer
    (<["modifiers" := Grammer.Arr ["public"; "static"]]>
       (<["static" := Grammer.Str "static"]> ∅)) "final" "modifiers" = true
  <-> "final" ∈ ["public"; "static"].
Proof.
  refine (proj2 (matchesGrammer_list_exact
                   (<["modifiers" := Grammer.Arr ["public"; "static"]]>
                      (<["static" := Grammer.Str "static"]> ∅))
                   "modifiers" ["public"; "static"] eq_refl _) _ "final");
    [vm_compute; reflexivity|].
  intros k s.
  rewrite lookup_insert_Some. intros [[_ [=]]|[_ H]].
  apply lookup_insert_Some in H as [[_ [= <-]]|[_ H]].
  - apply elem_of_cons. right. apply elem_of_cons. by left.
  - by rewrite lookup_empty in H.
Defined.

(** ** The closed parameter list and the wrapped block *)

(** Outside the parentheses, with no type pending, the parameter handler
    changes no Parameter: whatever tokens follow the closing parenthesis (a
    return type, the body of a one-line function), the list stays as it
    was until the next [(]. *)
Theorem closed_list_untouched (st : PHP.State) (tokens : list Token.t) :
  PHP.expectParameter st = false -> PHP.expectParameterType st = false ->
  Forall (fun token => PHP.labelled "(" token = false) tokens ->
  Symbols.params (PHP.symbols (ParameterList.parseAll tokens st))
  = Symbols.params (PHP.symbols st).
Proof.
  intros He Ht Hall. revert st He Ht.
  induction Hall as [|token tokens Hl _ IH]; intros st He Ht; [reflexivity|].
  unfold ParameterList.parseAll. cbn [foldl].
  fold (ParameterList.parseAll tokens (PHP.parseParameters token st)).
  destruct (PHP.isKind SymbolKind.Function st) eqn:Hk.
  2: { assert (Hid : PHP.parseParameters token st = st)
         by (unfold PHP.parseParameters; by rewrite Hk).
       rewrite Hid. by apply IH. }
  assert (Ho : ParameterList.opened token st = false)
    by (unfold ParameterList.opened; by rewrite Hl, He).
  rewrite IH.
  - rewrite parseParameters_params by exact Hk. rewrite Ho, Ht, andb_false_r.
    cbn [andb]. by destruct (PHP.isVariableName (Token.value token)).
  - by rewrite parseParameters_expectParameter, Ho.
  - by rewrite parseParameters_expectParameterType, Ht, Ho, andb_false_r.
Qed.

Lemma closed_list_untouched_witness :
  Symbols.params
    (PHP.symbols
       (ParameterList.parseAll
          [Token.punct "{"; Token.name "$x"; Token.operator "=";
           Token.name "Foo"]
          (PHP.setExpectParameter false PHP.inParameters)))
  = [].
Proof.
  apply (closed_list_untouched (PHP.setExpectParameter false PHP.inParameters)
           [Token.punct "{"; Token.name "$x"; Token.operator "=";
            Token.name "Foo"] eq_refl eq_refl).
  repeat constructor.
Defined.

Lemma join_terminated (eos tail : string) (lines : list string) :
  lines <> [] ->
  Js.join eos lines +:+ eos +:+ tail
  = foldr (fun blockLine rest => blockLine +:+ eos +:+ rest) tail lines.
Proof.
  assert (Hassoc : forall a b c : string, (a +:+ b) +:+ c = a +:+ b +:+ c).
  { intros a b c. induction a as [|x a IH]; [reflexivity|].
    change (String x ((a +:+ b) +:+ c) = String x (a +:+ b +:+ c)).
    by rewrite IH. }
  induction lines as [|x lines IH]; [congruence|]. intros _.
  destruct lines as [|y lines']; [reflexivity|].
  change (Js.join eos (x :: y :: lines'))
    with (x +:+ eos +:+ Js.join eos (y :: lines')).
  set (f := fun blockLine rest : string => blockLine +:+ eos +:+ rest) in *.
  change (foldr f tail (x :: y :: lines'))
    with (f x (foldr f tail (y :: lines'))).
  rewrite <- IH by discriminate. unfold f. by rewrite !Hassoc.
Qed.

Lemma renderLines_nonempty (this : Parser.t) (tokens : Tokens.t)
    (b : Parser.Block) :
  Parser.renderLines this tokens = Js.Normal b -> Parser.blockList b <> [].
Proof.
  unfold Parser.renderLines.
  cbn [Parser.placeholder Parser.count Parser.blockList].
  intros H. apply bind_normal in H as (b1 & Htags & H). injection H as <-.
  assert (Hb1 : 1 <= length (Parser.blockList b1)).
  { unfold Parser.renderParamTags in Htags.
    destruct (_ && _).
    - apply renderParams_rows in Htags as (rows & _ & Hbl & _).
      rewrite Hbl, length_app. cbn. lia.
    - injection Htags as <-. cbn. lia. }
  assert (Hgrow : length (Parser.blockList b1)
                  <= length (Parser.blockList
                               (Parser.renderVarTag this tokens
                                  (Parser.renderReturnTag this tokens b1)))).
  { unfold Parser.renderVarTag, Parser.renderReturnTag.
    destruct (Parser.isVariable tokens), (_ && _); cbn;
      rewrite ?length_app; cbn; lia. }
  intros Hnil. rewrite Hnil in Hgrow. cbn in Hgrow. lia.
Qed.

(** The rendered string is the opening delimiter and an end of line, then
    every line of the block, the blank ones included, as separator, line and
    end of line, then the closing delimiter: each line, the last one too, is
    terminated, and a blank line still carries the separator. *)
Theorem block_lines_terminated (this : Parser.t) (tokens : Tokens.t)
    (b : Parser.Block) :
  Parser.renderLines this tokens = Js.Normal b ->
  Parser.renderBlock this tokens
  = Js.Normal
      (Settings.commentOpen (Parser.settings this)
       +:+ Settings.eos (Parser.settings this)
       +:+ foldr (fun blockLine rest =>
                    Settings.separator (Parser.settings this) +:+ blockLine
                    +:+ Settings.eos (Parser.settings this) +:+ rest)
                 (Settings.commentClose (Parser.settings this))
                 (Parser.blockList b)).
Proof.
  intros H. pose proof (renderLines_nonempty _ _ _ H) as Hne.
  unfold Parser.renderBlock. rewrite H. cbn [mbind completion_bind Js.bind].
  unfold Parser.wrap. do 2 f_equal.
  rewrite join_terminated
    by (destruct (Parser.blockList b); [congruence|discriminate]).
  rewrite foldr_fmap. f_equal. apply foldr_ext; [|reflexivity|reflexivity].
  intros blockLine rest.
  assert (Hassoc : forall a b c : string, (a +:+ b) +:+ c = a +:+ b +:+ c).
  { intros a b' c. induction a as [|x a IH]; [reflexivity|].
    change (String x ((a +:+ b') +:+ c) = String x (a +:+ b' +:+ c)).
    by rewrite IH. }
  apply Hassoc.
Qed.

Lemma block_lines_terminated_witness :
  Parser.renderBlock Parser.default (Tokens.make "foo" "function" [])
  = Js.Normal
      ("/**" +:+ String (ascii_of_N 10) ""
       +:+ foldr (fun blockLine rest =>
                    " * " +:+ blockLine +:+ String (ascii_of_N 10) "" +:+ rest)
                 " */"
                 ["${1:[foo description]}"; ""; "@return  ${2:[type]}"]).
Proof.
  exact (block_lines_terminated Parser.default (Tokens.make "foo" "function" [])
           {| Parser.blockList :=
                ["${1:[foo description]}"; ""; "@return  ${2:[type]}"];
              Parser.count := 3 |} eq_refl).
Defined.

(** ** The tab stops of a rendered block *)

Section TabStopsOfBlock.

Import TabStops.

Lemma string_append_assoc (a b c : string) : (a +:+ b) +:+ c = a +:+ b +:+ c.
Proof.
  induction a as [|x a IH]; [reflexivity|].
  change (String x ((a +:+ b) +:+ c) = String x (a +:+ b +:+ c)).
  by rewrite IH.
Qed.

Lemma plain_app (a b : string) :
  plain (a +:+ b) = plain a && plain b.
Proof.
  unfold plain. induction a as [|x a IH]; [reflexivity|].
  change (String x a +:+ b) with (String x (a +:+ b)).
  cbn [Js.all]. by rewrite IH, andb_assoc.
Qed.

Lemma emits_nil : emits "" [].
Proof. intros t Ht. done. Qed.

Lemma emits_app (a b : string) (l l' : list nat) :
  emits a l -> emits b l' -> emits (a +:+ b) (l ++ l').
Proof.
  intros Ha Hb t Ht. destruct (Hb t Ht) as [Hub Hsb].
  destruct (Ha _ Hub) as [Hua Hsa].
  rewrite string_append_assoc, <- app_assoc, <- Hsb. done.
Qed.

Lemma opening_plain (c : ascii) (rest : string) :
  unopened rest -> opening (String c rest) = None.
Proof.
  destruct rest as [|d after]; [reflexivity|]. cbn. intros ->.
  by rewrite andb_false_r.
Qed.

Lemma emits_plain (a : string) : plain a = true -> emits a [].
Proof.
  induction a as [|c a IH]; [intros _; apply emits_nil|].
  unfold plain. cbn [Js.all]. intros [Hc Ha]%andb_true_iff.
  apply negb_true_iff in Hc. intros t Ht.
  destruct (IH Ha t Ht) as [Hu Hs]. split; [exact Hc|].
  change (String c a +:+ t) with (String c (a +:+ t)).
  cbn [tabStops]. rewrite (opening_plain _ _ Hu). exact Hs.
Qed.

Lemma digits_prefix (d t : string) :
  Js.all Text.isDigit d = true -> digits (d +:+ String ":" t) = d.
Proof.
  induction d as [|c d IH]; [reflexivity|]. cbn [Js.all].
  intros [Hc Hd]%andb_true_iff.
  change (String c d +:+ String ":" t) with (String c (d +:+ String ":" t)).
  cbn [digits]. by rewrite Hc, IH.
Qed.

Lemma number_ofNat (n : nat) (t : string) :
  number (Js.ofNat n +:+ String ":" t) = n.
Proof.
  unfold number. rewrite digits_prefix by apply ofNat_digits.
  unfold Js.ofNat. rewrite NilZero.usu.
  - apply Unsigned.of_to.
  - intros Hnil. pose proof (Unsigned.of_to n) as Hk. rewrite Hnil in Hk.
    cbn in Hk. subst n. discriminate Hnil.
Qed.

Lemma digits_plain (d : string) : Js.all Text.isDigit d = true -> plain d = true.
Proof.
  unfold plain. induction d as [|c d IH]; [reflexivity|]. cbn [Js.all].
  intros [Hc Hd]%andb_true_iff. rewrite IH by exact Hd.
  rewrite andb_true_r. apply negb_true_iff.
  destruct (Ascii.eqb_spec c "{") as [->|]; [discriminate|reflexivity].
Qed.

Lemma emits_placeholder (n : nat) (seed : string) :
  plain seed = true -> emits (Parser.placeholderText n seed) [n].
Proof.
  intros Hs t Ht. split; [reflexivity|].
  unfold Parser.placeholderText.
  assert (Hbody : plain (Js.ofNat n +:+ ":" +:+ seed +:+ "}") = true).
  { rewrite !plain_app, Hs, (digits_plain _ (ofNat_digits n)). reflexivity. }
  destruct (emits_plain _ Hbody t Ht) as [Hu Hst].
  change (("${" +:+ Js.ofNat n +:+ ":" +:+ seed +:+ "}") +:+ t)
    with (String "$" (String "{" ((Js.ofNat n +:+ ":" +:+ seed +:+ "}") +:+ t))).
  set (rest := (Js.ofNat n +:+ ":" +:+ seed +:+ "}") +:+ t) in *.
  cbn [tabStops].
  change (opening (String "$" (String "{" rest))) with (Some (number rest)).
  rewrite (opening_plain "{" rest Hu), Hst. cbn [app]. f_equal.
  subst rest. rewrite !string_append_assoc. apply number_ofNat.
Qed.

Lemma plain_escape (s : string) :
  plain s = true -> plain (Parser.escape s) = true.
Proof.
  unfold plain, Parser.escape. induction s as [|c s IH]; [done|].
  cbn [Js.all Js.replaceFirstDollar]. intros [Hc Hs]%andb_true_iff.
  destruct (Ascii.eqb c "$"); cbn [Js.all].
  - by rewrite Hs.
  - by rewrite Hc, IH.
Qed.

Lemma plain_spaces (n : nat) : plain (Js.spaces n) = true.
Proof. induction n as [|n IH]; [reflexivity|exact IH]. Qed.

Lemma string_append_nil_r (s : string) : s +:+ "" = s.
Proof.
  induction s as [|c s IH]; [reflexivity|].
  change (String c (s +:+ "") = String c s). by rewrite IH.
Qed.

Lemma numbered_push (b : Parser.Block) (line : string) (k : nat) :
  numbered b -> emits line (seq (Parser.count b) k) ->
  numbered {| Parser.blockList := Parser.blockList b ++ [line];
              Parser.count := Parser.count b + k |}.
Proof.
  intros (Hc & ls & Hls & Hcat) Hline. split; [cbn; lia|].
  exists (ls ++ [seq (Parser.count b) k])%list. cbn [Parser.blockList Parser.count].
  split.
  - apply Forall2_app; [exact Hls|]. constructor; [exact Hline|constructor].
  - rewrite concat_app, Hcat. cbn [concat]. rewrite app_nil_r.
    replace (Parser.count b + k - 1) with (Parser.count b - 1 + k) by lia.
    rewrite seq_app. do 2 f_equal. lia.
Qed.

Lemma numbered_push_plain (b : Parser.Block) (line : string) :
  numbered b -> plain line = true -> numbered (Parser.push line b).
Proof.
  intros Hb Hl.
  pose proof (numbered_push b line 0 Hb (emits_plain _ Hl)) as H.
  rewrite Nat.add_0_r in H. exact H.
Qed.

Section Rendering.

Variable this : Parser.t.
Variable tokens : Tokens.t.
Hypothesis Hcolumns : plain (Parser.columns this) = true.

Lemma renderParam_emits (p : Param.t) (b b' : Parser.Block) (r : Parser.Row) :
  Parser.renderParam this tokens p b = Js.Normal (r, b') ->
  plainParam p = true ->
  emits (Parser.line r) (seq (Parser.count b) 2)
  /\ Parser.blockList b' = Parser.blockList b
  /\ Parser.count b' = Parser.count b + 2.
Proof.
  unfold Parser.renderParam, plainParam, Parser.typeText. intros H Hp.
  apply andb_true_iff in Hp as [Hn Ht].
  apply bind_normal in H as (m & _ & H).
  apply bind_normal in H as (d & _ & H).
  assert (Hd : plain ("[" +:+ Parser.escape (Param.name p) +:+ " description]")
               = true)
    by (rewrite !plain_app, (plain_escape _ Hn); reflexivity).
  assert (Htag : plain ("@param" +:+ Parser.columns this +:+ " ") = true)
    by (rewrite !plain_app, Hcolumns; reflexivity).
  destruct (Param.type p) as [ty|]; cbn in H; injection H as <- <-;
    cbn [Parser.blockList Parser.count]; (split; [|split; [reflexivity|lia]]).
  all: unfold Parser.line;
    cbn [Parser.tag Parser.typeField Parser.tSpace Parser.nameField
         Parser.pSpace Parser.desc].
  all: change (seq (Parser.count b) 2)
         with ([] ++ [Parser.count b] ++ [] ++ [] ++ [] ++ [S (Parser.count b)])%list.
  all: repeat apply emits_app.
  all: first [ apply emits_placeholder; first [by apply plain_escape|done]
             | apply emits_plain;
               first [exact Htag|apply plain_spaces|by apply plain_escape] ].
Qed.

Lemma renderParams_numbered (l : list Param.t) (b b' : Parser.Block) :
  Parser.renderParams this tokens l b = Js.Normal b' ->
  forallb plainParam l = true -> numbered b ->
  numbered b' /\ Parser.count b' = Parser.count b + 2 * length l.
Proof.
  revert b. induction l as [|p l IH]; intros b; cbn [Parser.renderParams forallb].
  - intros [= <-] _ Hb. split; [exact Hb|cbn; lia].
  - intros H [Hp Hl]%andb_true_iff Hb.
    apply bind_normal in H as ([r b1] & Hr & H). cbn [fst snd] in H.
    destruct (renderParam_emits _ _ _ _ Hr Hp) as (Hline & Hbl & Hc).
    destruct (IH _ H Hl) as [Hn Hc'].
    + pose proof (numbered_push b (Parser.line r) 2 Hb Hline) as Hpush.
      unfold Parser.push. by rewrite Hbl, Hc.
    + split; [exact Hn|]. rewrite Hc'. cbn [Parser.push Parser.count length]. lia.
Qed.

End Rendering.

Section Block.

Variable this : Parser.t.
Variable tokens : Tokens.t.
Hypothesis Hparser : plainParser this = true.
Hypothesis Hrecord : plainRecord tokens = true.

Lemma plain_columns : plain (Parser.columns this) = true.
Proof.
  unfold plainParser in Hparser. by apply andb_true_iff in Hparser as [_ H].
Qed.

Lemma numbered_stop (b : Parser.Block) (line : string) :
  numbered b -> emits line [Parser.count b] ->
  numbered
    (Parser.push line
       {| Parser.blockList := Parser.blockList b;
          Parser.count := S (Parser.count b) |}).
Proof.
  intros Hb Hline.
  pose proof (numbered_push b line 1 Hb Hline) as H.
  unfold Parser.push. cbn [Parser.blockList Parser.count].
  by rewrite Nat.add_1_r in H.
Qed.

Lemma emits_tag (tag seed : string) (n : nat) :
  plain tag = true -> plain seed = true ->
  emits (tag +:+ Parser.columns this +:+ Parser.placeholderText n seed) [n].
Proof.
  intros Htag Hseed. change [n] with ([] ++ [] ++ [n])%list.
  repeat apply emits_app.
  - by apply emits_plain.
  - apply emits_plain, plain_columns.
  - by apply emits_placeholder.
Qed.

Lemma renderReturnTag_numbered (b : Parser.Block) :
  numbered b ->
  numbered (Parser.renderReturnTag this tokens b)
  /\ Parser.count (Parser.renderReturnTag this tokens b)
     = Parser.count b + (if Parser.returnShown this tokens then 1 else 0).
Proof.
  intros Hb. unfold Parser.renderReturnTag, Parser.returnShown.
  destruct (_ && _ && _); [|split; [exact Hb|lia]].
  cbn [Parser.placeholder].
  fold (Parser.returnText tokens).
  split; [|cbn; lia].
  apply (numbered_stop (Parser.push "" b)).
  - by apply numbered_push_plain.
  - apply emits_tag; [reflexivity|].
    unfold plainRecord in Hrecord. by apply andb_true_iff in Hrecord as [_ H].
Qed.

Lemma renderVarTag_numbered (b : Parser.Block) :
  numbered b ->
  numbered (Parser.renderVarTag this tokens b)
  /\ Parser.count (Parser.renderVarTag this tokens b)
     = Parser.count b + (if Parser.isVariable tokens then 1 else 0).
Proof.
  intros Hb. unfold Parser.renderVarTag.
  destruct (Parser.isVariable tokens); [|split; [exact Hb|lia]].
  cbn [Parser.placeholder]. split; [|cbn; lia].
  apply (numbered_stop (Parser.push "" b)).
  - by apply numbered_push_plain.
  - by apply emits_tag.
Qed.

Lemma renderParamTags_numbered (b b' : Parser.Block) :
  Parser.renderParamTags this tokens b = Js.Normal b' -> numbered b ->
  numbered b'
  /\ Parser.count b'
     = Parser.count b
       + (if Parser.isVariable tokens then 0
          else 2 * length (Tokens.params tokens)).
Proof.
  unfold Parser.renderParamTags. intros H Hb.
  destruct (Parser.isVariable tokens) eqn:Hv.
  - rewrite andb_false_r in H. injection H as <-. split; [exact Hb|lia].
  - rewrite andb_true_r in H.
    destruct (bool_decide (length (Tokens.params tokens) = 0)) eqn:Hl;
      cbn [negb] in H.
    + injection H as <-. apply bool_decide_eq_true in Hl. rewrite Hl.
      split; [exact Hb|lia].
    + apply (renderParams_numbered this tokens plain_columns) in H as [Hn Hc].
      * split; [exact Hn|]. rewrite Hc. reflexivity.
      * unfold plainRecord in Hrecord.
        by apply andb_true_iff in Hrecord as [[_ H']%andb_true_iff _].
      * by apply numbered_push_plain.
Qed.

Lemma renderLines_numbered (b : Parser.Block) :
  Parser.renderLines this tokens = Js.Normal b ->
  numbered b /\ Parser.count b = 1 + TabStops.count this tokens.
Proof.
  unfold Parser.renderLines. cbn [Parser.placeholder Parser.count Parser.blockList].
  intros H. apply bind_normal in H as (b1 & Htags & H). injection H as <-.
  assert (Hstart : numbered {| Parser.blockList := []; Parser.count := 1 |}).
  { split; [cbn; lia|]. exists []. split; [constructor|reflexivity]. }
  assert (Hname : plain ("[" +:+ Parser.escape (Tokens.name tokens)
                         +:+ " description]") = true).
  { unfold plainRecord in Hrecord.
    apply andb_true_iff in Hrecord as [[Hn _]%andb_true_iff _].
    rewrite !plain_app, (plain_escape _ Hn). reflexivity. }
  pose proof (numbered_stop _ _ Hstart (emits_placeholder 1 _ Hname)) as Hd.
  cbn [Parser.count Parser.blockList] in Hd.
  apply renderParamTags_numbered in Htags as [Hn1 Hc1]; [|exact Hd].
  destruct (renderReturnTag_numbered b1 Hn1) as [Hn2 Hc2].
  destruct (renderVarTag_numbered _ Hn2) as [Hn3 Hc3].
  split; [exact Hn3|]. rewrite Hc3, Hc2, Hc1. unfold TabStops.count.
  cbn [Parser.push Parser.count]. lia.
Qed.

Lemma emits_join (lines : list string) (ls : list (list nat)) :
  Forall2 emits lines ls ->
  emits (Js.join (Settings.eos (Parser.settings this))
           ((fun blockLine =>
               Settings.separator (Parser.settings this) +:+ blockLine)
              <$> lines))
        (concat ls).
Proof.
  assert (Hsep : plain (Settings.separator (Parser.settings this)) = true).
  { unfold plainParser in Hparser.
    by apply andb_true_iff in Hparser
      as [[[_ H]%andb_true_iff _]%andb_true_iff _]. }
  assert (Heos : plain (Settings.eos (Parser.settings this)) = true).
  { unfold plainParser in Hparser.
    by apply andb_true_iff in Hparser as [[_ H]%andb_true_iff _]. }
  induction 1 as [|line l lines ls Hline Hrest IH]; [apply emits_nil|].
  assert (Hfirst : emits (Settings.separator (Parser.settings this) +:+ line) l)
    by (apply (emits_app _ _ []); [by apply emits_plain|exact Hline]).
  destruct Hrest as [|line' l' lines' ls' Hline' Hrest'].
  - cbn [fmap list_fmap Js.join concat]. by rewrite app_nil_r.
  - change (concat (l :: l' :: ls')) with (l ++ [] ++ concat (l' :: ls'))%list.
    change (Js.join ?eos (?f <$> line :: line' :: lines'))
      with (f line +:+ eos +:+ Js.join eos (f <$> line' :: lines')).
    apply emits_app; [exact Hfirst|].
    apply emits_app; [by apply emits_plain|exact IH].
Qed.

Lemma wrap_stops (b : Parser.Block) :
  numbered b ->
  tabStops (Parser.wrap this b) = seq 1 (Parser.count b - 1).
Proof.
  intros (_ & ls & Hls & <-).
  assert (Hopen : plain (Settings.commentOpen (Parser.settings this)) = true).
  { unfold plainParser in Hparser.
    by apply andb_true_iff in Hparser
      as [[[[H _]%andb_true_iff _]%andb_true_iff _]%andb_true_iff _]. }
  assert (Hclose : plain (Settings.commentClose (Parser.settings this)) = true).
  { unfold plainParser in Hparser.
    by apply andb_true_iff in Hparser
      as [[[[_ H]%andb_true_iff _]%andb_true_iff _]%andb_true_iff _]. }
  assert (Heos : plain (Settings.eos (Parser.settings this)) = true).
  { unfold plainParser in Hparser.
    by apply andb_true_iff in Hparser as [[_ H]%andb_true_iff _]. }
  assert (H : emits (Parser.wrap this b) ([] ++ [] ++ concat ls ++ [] ++ [])).
  { unfold Parser.wrap. cbn zeta.
    repeat apply emits_app; try (by apply emits_plain). by apply emits_join. }
  destruct (H "" I) as [_ Hs]. rewrite string_append_nil_r in Hs. rewrite Hs.
  cbn [app tabStops]. by rewrite !app_nil_r.
Qed.

End Block.

End TabStopsOfBlock.

Section Agreement.

Variables this this' : Parser.t.
Variable tokens : Tokens.t.
Hypothesis Hcol : Parser.columns this = Parser.columns this'.
Hypothesis Hsp : Config.columnSpacing (Parser.config this)
                 = Config.columnSpacing (Parser.config this').
Hypothesis Htag : Config.defaultReturnTag (Parser.config this)
                  = Config.defaultReturnTag (Parser.config this').

Lemma renderParam_agree (p : Param.t) (b : Parser.Block) :
  Parser.renderParam this tokens p b = Parser.renderParam this' tokens p b.
Proof. unfold Parser.renderParam. by rewrite Hsp, Hcol. Qed.

Lemma renderParams_agree (l : list Param.t) (b : Parser.Block) :
  Parser.renderParams this tokens l b = Parser.renderParams this' tokens l b.
Proof.
  revert b. induction l as [|p l IH]; intros b; [reflexivity|].
  cbn [Parser.renderParams]. rewrite renderParam_agree.
  destruct (Parser.renderParam this' tokens p b) as [[r b1]|e]; [|reflexivity].
  apply IH.
Qed.

Lemma renderLines_agree :
  Parser.renderLines this tokens = Parser.renderLines this' tokens.
Proof.
  unfold Parser.renderLines, Parser.renderParamTags.
  cbn [Parser.placeholder].
  destruct (_ && _).
  - rewrite renderParams_agree.
    destruct (Parser.renderParams this' tokens _ _) as [b1|e]; [|reflexivity].
    cbn. unfold Parser.renderVarTag, Parser.renderReturnTag.
    by rewrite Htag, Hcol.
  - cbn. unfold Parser.renderVarTag, Parser.renderReturnTag.
    by rewrite Htag, Hcol.
Qed.

End Agreement.

(** C5: the outcome of rendering is fixed by the record, the column spacing,
    the return-tag toggle, the column blanks and the comment delimiters: any
    two calls that agree on these, on whatever parser object and with
    whatever else in the configuration, complete alike, string for string.
    The counter restarts with every call: in the string a call returns,
    for plain texts, the tab stops are 1, 2, ..., n in the order of the
    text, one for the description, two for each parameter, one for the
    return or var tag.  A call that returns no string throws a TypeError. *)
Theorem renderBlock_deterministic :
  (forall (this this' : Parser.t) (tokens : Tokens.t),
     Parser.settings this = Parser.settings this' ->
     Parser.columns this = Parser.columns this' ->
     Config.columnSpacing (Parser.config this)
     = Config.columnSpacing (Parser.config this') ->
     Config.defaultReturnTag (Parser.config this)
     = Config.defaultReturnTag (Parser.config this') ->
     Parser.renderBlock this tokens = Parser.renderBlock this' tokens)
  /\ (forall (this : Parser.t) (tokens : Tokens.t) (s : string),
        Parser.renderBlock this tokens = Js.Normal s ->
        TabStops.plainParser this = true ->
        TabStops.plainRecord tokens = true ->
        TabStops.tabStops s = seq 1 (TabStops.count this tokens))
  /\ (forall (this : Parser.t) (tokens : Tokens.t) (e : Js.exception),
        Parser.renderBlock this tokens = Js.Throw e -> e = Js.TypeError).
Proof.
  split; [|split].
  - intros this this' tokens Hs Hcol Hsp Htag.
    unfold Parser.renderBlock.
    rewrite (renderLines_agree this this' tokens Hcol Hsp Htag).
    unfold Parser.wrap. by rewrite Hs.
  - intros this tokens s H Hparser Hrecord. unfold Parser.renderBlock in H.
    apply bind_normal in H as (b & Hb & [= <-]).
    destruct (renderLines_numbered this tokens Hparser Hrecord b Hb)
      as [Hn Hc].
    rewrite (wrap_stops this Hparser b Hn), Hc. f_equal; lia.
  - intros this tokens e H. unfold Parser.renderBlock in H.
    destruct (Parser.renderLines this tokens) as [b|e'] eqn:Hl;
      [discriminate|].
    cbn in H. injection H as <-. by apply (renderLines_throw this tokens).
Qed.

Lemma renderBlock_deterministic_witness :
  exists s,
    Parser.renderBlock Parser.default
      (Tokens.make "foo" "function"
         [Param.make "$a" (Some "int"); Param.make "$long" (Some "string")])
    = Js.Normal s
    /\ TabStops.tabStops s = [1; 2; 3; 4; 5; 6].
Proof.
  eexists. split; [reflexivity|].
  apply (proj1 (proj2 renderBlock_deterministic) Parser.default
           (Tokens.make "foo" "function"
              [Param.make "$a" (Some "int");
               Param.make "$long" (Some "string")]));
    reflexivity.
Defined.
